(** * Loan analytics pipeline: bronze -> silver -> gold

    A shallow embedding of the two Lambda handlers of the pipeline,

    - [pipeline/lambda_transform_bronze_to_silver/lambda-function.py]
      (the Normalizer), and
    - [pipeline/lambda_transform_silver_to_gold/lambda-function.py]
      (the Aggregator),

    together with the properties their specification states about them.

    Conventions of the embedding.

    - A data frame is the list of its rows, in row order; a row is a record
      with one field per column, named as the column is.
    - Text columns hold [option string]: [None] is the missing value
      (pandas' NaN/None).
    - [float64] is kept abstract: the development is parametric in the type
      of floats and in the library operations the handlers call on them
      (comparison with zero, column sum, column mean), so every theorem
      holds for the real IEEE arithmetic as well as for an exact one.
    - Exceptions and side effects are explicit: a computation takes the log
      of the effects performed so far and returns either an error or a
      value, with the extended log. *)

From Stdlib Require Import ZArith QArith String List.
From stdpp Require Import base option list strings gmap sorting.

Local Open Scope string_scope.
Local Open Scope list_scope.
Local Open Scope Z_scope.

(** ** Errors and the effect monad *)

(** The error kinds of the specification, each with the Python exception the
    code raises for it. *)
Inductive error : Type :=
  | MissingConfiguration (key : string) (* KeyError of os.environ[key] *)
  | TypeCoercionError                   (* ValueError of Series.astype *)
  | NotFoundError                       (* FileNotFoundError *)
  | ParamValidationError                (* boto3 rejects a None parameter *)
  | StorageReadError
  | StorageWriteError
  | CatalogRegistrationError
  | SecretRetrievalError
  | DatabaseConnectionError
  | BulkLoadError.

Definition result (A : Type) : Type := error + A.

(** [M E A]: a computation that may append effects of type [E] to the log
    and then either raises or returns an [A]. An exception keeps the effects
    already performed: nothing is rolled back. *)
Definition M (E A : Type) : Type := list E → result A * list E.

Definition ret {E A} (a : A) : M E A := λ log, (inr a, log).

Definition raise {E A} (e : error) : M E A := λ log, (inl e, log).

Definition bind {E A B} (m : M E A) (k : A → M E B) : M E B :=
  λ log, match m log with
         | (inl e, log') => (inl e, log')
         | (inr a, log') => k a log'
         end.

Definition emit {E} (ev : E) : M E unit := λ log, (inr tt, log ++ [ev]).

Definition lift {E A} (r : result A) : M E A :=
  match r with
  | inl e => raise e
  | inr a => ret a
  end.

(** One invocation starts with no effect performed. *)
Definition run {E A} (m : M E A) : result A * list E := m [].

Notation "'do' x <- m ; k" := (bind m (λ x, k))
  (at level 10, x name, m at level 100, k at level 200).
Notation "'do_' m ; k" := (bind m (λ _, k))
  (at level 10, m at level 100, k at level 200).

(** The same sequencing for a computation without effects. *)
Definition result_bind {A B} (r : result A) (k : A → result B) : result B :=
  match r with
  | inl e => inl e
  | inr a => k a
  end.

Notation "'try' x <- r ; k" := (result_bind r (λ x, k))
  (at level 10, x name, r at level 100, k at level 200).

(** [os.environ]: a finite map from names to values. *)
Abbreviation environ := (gmap string string).

(** [os.environ[key]] raises [KeyError] when the key is absent. *)
Definition environ_getitem (env : environ) (key : string) : result string :=
  match env !! key with
  | Some v => inr v
  | None => inl (MissingConfiguration key)
  end.

(** [os.environ.get(key)] is [None] when the key is absent. *)
Definition environ_get (env : environ) (key : string) : option string :=
  env !! key.

(** [os.environ.get(key, default)]. *)
Definition environ_get_default (env : environ) (key dflt : string) : string :=
  default dflt (env !! key).

(** ** The Normalizer (bronze to silver) *)

Module Normalizer.

(** The raw frame [df]: one field per CSV column. The three amount columns
    hold an [F] and the two integer columns an [I]: cells as [read_csv]
    returned them before the coercion, floats and integers after it. *)
Module Raw.
Section Row.
Context {F I : Type}.
Record row : Type := {
  Customer_ID : option string;
  Name : option string;
  Region : option string;
  Contact_Number : option string;
  Email : option string;
  Customer_Score : I;
  Risk_Level : option string;
  Account_Number : option string;
  Account_Type : option string;
  Loan_Type : option string;
  Loan_Amount : F;
  Outstanding_Amount : F;
  EMI_Amount : F;
  Due_Date : option string;
  Payment_Status : option string;
  Last_Payment_Date : option string;
  Payment_Delay_Days : I
}.
End Row.
Arguments row : clear implicits.
End Raw.

(** [df] after the two derived columns were added. *)
Module Derived.
Section Row.
Context {float : Type}.
Record row : Type := {
  base : Raw.row float Z;
  Payment_On_Time_Flag : string;
  Payment_Behavior : string
}.
End Row.
Arguments row : clear implicits.
End Derived.

Module DimCustomer.
Record row : Type := {
  Customer_ID : option string;
  Name : option string;
  Region : option string;
  Contact_Number : option string;
  Email : option string;
  Customer_Score : Z;
  Risk_Level : option string
}.
End DimCustomer.

Module DimAccount.
Record row : Type := {
  Account_Number : option string;
  Account_Type : option string;
  Loan_Type : option string
}.
End DimAccount.

Module FactLoanPayment.
Section Row.
Context {float : Type}.
Record row : Type := {
  Customer_ID : option string;
  Account_Number : option string;
  Loan_Amount : float;
  Outstanding_Amount : float;
  EMI_Amount : float;
  Due_Date : option string;
  Payment_Status : option string;
  Last_Payment_Date : option string;
  Payment_Delay_Days : Z;
  Payment_On_Time_Flag : string;
  Payment_Behavior : string
}.
End Row.
Arguments row : clear implicits.
End FactLoanPayment.

(** The module-level constants, read from the environment when the module
    is loaded. *)
Record config : Type := {
  BUCKET_NAME : string;
  BRONZE_PREFIX : string;
  SILVER_PREFIX : string;
  ATHENA_DATABASE : string
}.

(** The settings read with [os.environ[..]]. *)
Definition required : list string :=
  ["BUCKET_NAME"; "BRONZE_PREFIX"; "SILVER_PREFIX"].

Definition load_module (env : environ) : result config :=
  try bucket <- environ_getitem env "BUCKET_NAME";
  try bronze <- environ_getitem env "BRONZE_PREFIX";
  try silver <- environ_getitem env "SILVER_PREFIX";
  inr {| BUCKET_NAME := bucket;
         BRONZE_PREFIX := bronze;
         SILVER_PREFIX := silver;
         ATHENA_DATABASE :=
           environ_get_default env "ATHENA_DATABASE" "loan_analytics" |}.

(** [lambda x: "Yes" if x == 0 else "No"] *)
Definition payment_on_time_flag (x : Z) : string :=
  if x =? 0 then "Yes" else "No".

(** [lambda x: "Good" if x == 0 else ("Average" if x <= 10 else "Delayed")] *)
Definition payment_behavior (x : Z) : string :=
  if x =? 0 then "Good" else if x <=? 10 then "Average" else "Delayed".

(** [DataFrame.drop_duplicates(subset=[key])]: the default [keep="first"]
    keeps, for every key, the first row that carries it. [seen] holds the
    keys of the rows already passed. *)
Fixpoint drop_duplicates_from {A K : Type} `{EqDecision K}
    (key : A → K) (seen : list K) (df : list A) : list A :=
  match df with
  | [] => []
  | r :: rest =>
      if decide (key r ∈ seen)
      then drop_duplicates_from key seen rest
      else r :: drop_duplicates_from key (key r :: seen) rest
  end.

Definition drop_duplicates {A K : Type} `{EqDecision K}
    (key : A → K) (df : list A) : list A :=
  drop_duplicates_from key [] df.

Record response : Type := {
  status : string;
  message : string
}.

Section Handler.
(** [cell]: a value of a column as [wr.s3.read_csv] returned it;
    [float]: a float64. The three library operations the handler applies
    to them are parameters: [Series.astype(float)] and [Series.astype(int)]
    on one cell ([None] when pandas raises for it) and the comparison
    [x > 0] on a float. *)
Context {cell float : Type}.
Variable astype_float : cell → option float.
Variable astype_int : cell → option Z.
Variable gt0 : float → bool.

(** The five coercions of one row, in the order of the source. *)
Definition coerce_row (r : Raw.row cell cell) : option (Raw.row float Z) :=
  loan ← astype_float (Raw.Loan_Amount r);
  outstanding ← astype_float (Raw.Outstanding_Amount r);
  emi ← astype_float (Raw.EMI_Amount r);
  delay ← astype_int (Raw.Payment_Delay_Days r);
  score ← astype_int (Raw.Customer_Score r);
  Some {| Raw.Customer_ID := Raw.Customer_ID r;
          Raw.Name := Raw.Name r;
          Raw.Region := Raw.Region r;
          Raw.Contact_Number := Raw.Contact_Number r;
          Raw.Email := Raw.Email r;
          Raw.Customer_Score := score;
          Raw.Risk_Level := Raw.Risk_Level r;
          Raw.Account_Number := Raw.Account_Number r;
          Raw.Account_Type := Raw.Account_Type r;
          Raw.Loan_Type := Raw.Loan_Type r;
          Raw.Loan_Amount := loan;
          Raw.Outstanding_Amount := outstanding;
          Raw.EMI_Amount := emi;
          Raw.Due_Date := Raw.Due_Date r;
          Raw.Payment_Status := Raw.Payment_Status r;
          Raw.Last_Payment_Date := Raw.Last_Payment_Date r;
          Raw.Payment_Delay_Days := delay |}.

(** Lines 17-21. [astype] converts a whole column or raises: the five
    assignments succeed exactly when every one of the five cells of every
    row converts. They have no other effect, so the frame is coerced row
    by row here; whichever cell fails, the exception is the same. *)
Definition coerce (df : list (Raw.row cell cell))
    : result (list (Raw.row float Z)) :=
  match mapM coerce_row df with
  | Some df' => inr df'
  | None => inl TypeCoercionError
  end.

(** A row for which one of the five coercions raises. Which values these
    are is pandas' matter: [astype(float)] raises for a text that is no
    number and accepts the missing value; [astype(int)] raises for both. *)
Definition non_numeric (r : Raw.row cell cell) : Prop :=
  astype_float (Raw.Loan_Amount r) = None ∨
  astype_float (Raw.Outstanding_Amount r) = None ∨
  astype_float (Raw.EMI_Amount r) = None ∨
  astype_int (Raw.Payment_Delay_Days r) = None ∨
  astype_int (Raw.Customer_Score r) = None.

(** Line 23: [df = df[df["Loan_Amount"] > 0]]. *)
Definition retain (df : list (Raw.row float Z)) : list (Raw.row float Z) :=
  filter (λ r, gt0 (Raw.Loan_Amount r) = true) df.

(** The coerced rows of the input [raw] that pass the filter. *)
Definition retained_from (raw : list (Raw.row cell cell)) (s : Raw.row float Z)
    : Prop :=
  ∃ x, x ∈ raw ∧ coerce_row x = Some s ∧ gt0 (Raw.Loan_Amount s) = true.

(** Lines 25-28: the two derived columns. *)
Definition derive (r : Raw.row float Z) : Derived.row float :=
  {| Derived.base := r;
     Derived.Payment_On_Time_Flag :=
       payment_on_time_flag (Raw.Payment_Delay_Days r);
     Derived.Payment_Behavior :=
       payment_behavior (Raw.Payment_Delay_Days r) |}.

(** The three column selections. *)
Definition customer_columns (d : Derived.row float) : DimCustomer.row :=
  let r := Derived.base d in
  {| DimCustomer.Customer_ID := Raw.Customer_ID r;
     DimCustomer.Name := Raw.Name r;
     DimCustomer.Region := Raw.Region r;
     DimCustomer.Contact_Number := Raw.Contact_Number r;
     DimCustomer.Email := Raw.Email r;
     DimCustomer.Customer_Score := Raw.Customer_Score r;
     DimCustomer.Risk_Level := Raw.Risk_Level r |}.

Definition account_columns (d : Derived.row float) : DimAccount.row :=
  let r := Derived.base d in
  {| DimAccount.Account_Number := Raw.Account_Number r;
     DimAccount.Account_Type := Raw.Account_Type r;
     DimAccount.Loan_Type := Raw.Loan_Type r |}.

Definition fact_columns (d : Derived.row float) : FactLoanPayment.row float :=
  let r := Derived.base d in
  {| FactLoanPayment.Customer_ID := Raw.Customer_ID r;
     FactLoanPayment.Account_Number := Raw.Account_Number r;
     FactLoanPayment.Loan_Amount := Raw.Loan_Amount r;
     FactLoanPayment.Outstanding_Amount := Raw.Outstanding_Amount r;
     FactLoanPayment.EMI_Amount := Raw.EMI_Amount r;
     FactLoanPayment.Due_Date := Raw.Due_Date r;
     FactLoanPayment.Payment_Status := Raw.Payment_Status r;
     FactLoanPayment.Last_Payment_Date := Raw.Last_Payment_Date r;
     FactLoanPayment.Payment_Delay_Days := Raw.Payment_Delay_Days r;
     FactLoanPayment.Payment_On_Time_Flag := Derived.Payment_On_Time_Flag d;
     FactLoanPayment.Payment_Behavior := Derived.Payment_Behavior d |}.

Definition dim_customer (df : list (Derived.row float)) : list DimCustomer.row :=
  drop_duplicates DimCustomer.Customer_ID (customer_columns <$> df).

Definition dim_account (df : list (Derived.row float)) : list DimAccount.row :=
  drop_duplicates DimAccount.Account_Number (account_columns <$> df).

Definition fact_loan_payment (df : list (Derived.row float))
    : list (FactLoanPayment.row float) :=
  fact_columns <$> df.

(** The frame the three tables are cut from: the retained rows of the
    coerced input, with the derived columns. *)
Definition silver (typed : list (Raw.row float Z)) : list (Derived.row float) :=
  derive <$> retain typed.

(** The rows of the three tables after the first [n] writes of a run. *)
Definition rows_after (n : nat) (typed : list (Raw.row float Z))
    : list DimCustomer.row * list DimAccount.row * list (FactLoanPayment.row float) :=
  (if decide (1 ≤ n)%nat then dim_customer (silver typed) else [],
   if decide (2 ≤ n)%nat then dim_account (silver typed) else [],
   if decide (3 ≤ n)%nat then fact_loan_payment (silver typed) else []).

(** What one [wr.s3.to_parquet] call writes. *)
Inductive frame : Type :=
  | CustomerFrame (rows : list DimCustomer.row)
  | AccountFrame (rows : list DimAccount.row)
  | FactFrame (rows : list (FactLoanPayment.row float)).

(** The only effect of the handler: a completed
    [wr.s3.to_parquet(df=.., path=.., dataset=True, database=.., table=..)],
    which appends the frame to the dataset at [path] and registers the
    table in the catalog. *)
Record to_parquet_call : Type := {
  df : frame;
  path : string;
  database : string;
  table : string
}.

(** The collaborators: what [wr.s3.read_csv] returns for a path, and
    whether the [to_parquet] call for a path fails (with a storage or a
    catalog error). A failed call is not logged. *)
Record world : Type := {
  read_csv : string → result (list (Raw.row cell cell));
  to_parquet_failure : string → option error
}.

Definition to_parquet (w : world) (c : to_parquet_call) : M to_parquet_call unit :=
  match to_parquet_failure w (path c) with
  | Some e => raise e
  | None => emit c
  end.

(** Line 14. *)
Definition bronze_path (cfg : config) : string :=
  "s3://" +:+ BUCKET_NAME cfg +:+ "/" +:+ BRONZE_PREFIX cfg.

Definition lambda_handler (cfg : config) (w : world)
    : M to_parquet_call response :=
  do df <- lift (read_csv w (bronze_path cfg));
  do df <- lift (coerce df);
  let df := retain df in
  let df := derive <$> df in
  do_ to_parquet w
    {| df := CustomerFrame (dim_customer df);
       path := "s3://" +:+ BUCKET_NAME cfg +:+ "/" +:+ SILVER_PREFIX cfg
                 +:+ "dim_customer/";
       database := ATHENA_DATABASE cfg;
       table := "dim_customer" |};
  do_ to_parquet w
    {| df := AccountFrame (dim_account df);
       path := "s3://" +:+ BUCKET_NAME cfg +:+ "/" +:+ SILVER_PREFIX cfg
                 +:+ "dim_account/";
       database := ATHENA_DATABASE cfg;
       table := "dim_account" |};
  do_ to_parquet w
    {| df := FactFrame (fact_loan_payment df);
       path := "s3://" +:+ BUCKET_NAME cfg +:+ "/" +:+ SILVER_PREFIX cfg
                 +:+ "fact_loan_payment/";
       database := ATHENA_DATABASE cfg;
       table := "fact_loan_payment" |};
  ret {| status := "Success";
         message := "Bronze → Silver ETL completed." |}.

(** One cold start: the module is loaded from the environment, then the
    handler runs. When loading raises, the handler never starts. *)
Definition invoke (env : environ) (w : world)
    : result response * list to_parquet_call :=
  match load_module env with
  | inl e => (inl e, [])
  | inr cfg => run (lambda_handler cfg w)
  end.

(** The frame a cold start reads, when it gets as far as reading it. *)
Definition input_of (env : environ) (w : world) : list (Raw.row cell cell) :=
  match load_module env with
  | inl _ => []
  | inr cfg =>
      match read_csv w (bronze_path cfg) with
      | inl _ => []
      | inr raw => raw
      end
  end.

(** The rows a log of completed writes added to each of the three tables. *)
Definition written_customer_rows (log : list to_parquet_call)
    : list DimCustomer.row :=
  c ← log; match df c with CustomerFrame rows => rows | _ => [] end.

Definition written_account_rows (log : list to_parquet_call)
    : list DimAccount.row :=
  c ← log; match df c with AccountFrame rows => rows | _ => [] end.

Definition written_fact_rows (log : list to_parquet_call)
    : list (FactLoanPayment.row float) :=
  c ← log; match df c with FactFrame rows => rows | _ => [] end.

(** The three writes of lines 34-66, in their order, for the frame [df] of
    line 28. *)
Definition planned_writes (cfg : config) (df : list (Derived.row float))
    : list to_parquet_call :=
  [ {| df := CustomerFrame (dim_customer df);
       path := "s3://" +:+ BUCKET_NAME cfg +:+ "/" +:+ SILVER_PREFIX cfg
                 +:+ "dim_customer/";
       database := ATHENA_DATABASE cfg;
       table := "dim_customer" |};
    {| df := AccountFrame (dim_account df);
       path := "s3://" +:+ BUCKET_NAME cfg +:+ "/" +:+ SILVER_PREFIX cfg
                 +:+ "dim_account/";
       database := ATHENA_DATABASE cfg;
       table := "dim_account" |};
    {| df := FactFrame (fact_loan_payment df);
       path := "s3://" +:+ BUCKET_NAME cfg +:+ "/" +:+ SILVER_PREFIX cfg
                 +:+ "fact_loan_payment/";
       database := ATHENA_DATABASE cfg;
       table := "fact_loan_payment" |} ].

(** The response of line 68. *)
Definition success : response :=
  {| status := "Success"; message := "Bronze → Silver ETL completed." |}.

End Handler.

End Normalizer.

(** ** The Aggregator (silver to gold) *)

Module Aggregator.

(** The two silver tables as they are read back: the columns of the
    Normalizer's tables, lower-cased on read (line 36). *)
Module Fact.
Section Row.
Context {float : Type}.
Record row : Type := {
  customer_id : option string;
  account_number : option string;
  loan_amount : float;
  outstanding_amount : float;
  emi_amount : float;
  due_date : option string;
  payment_status : option string;
  last_payment_date : option string;
  payment_delay_days : Z;
  payment_on_time_flag : option string;
  payment_behavior : option string
}.
End Row.
Arguments row : clear implicits.
End Fact.

Module Customer.
Record row : Type := {
  customer_id : option string;
  name : option string;
  region : option string;
  contact_number : option string;
  email : option string;
  customer_score : Z;
  risk_level : option string
}.
End Customer.

(** A row of [merged_df]: the columns of the fact row, then those of the
    matching customer row; [None] when no customer matched, where pandas
    fills every customer column with a missing value. *)
Module Merged.
Section Row.
Context {float : Type}.
Record row : Type := {
  fact : Fact.row float;
  customer : option Customer.row
}.

Definition customer_id (m : row) : option string := Fact.customer_id (fact m).
Definition region (m : row) : option string := customer m ≫= Customer.region.
Definition loan_amount (m : row) : float := Fact.loan_amount (fact m).
Definition outstanding_amount (m : row) : float := Fact.outstanding_amount (fact m).
Definition emi_amount (m : row) : float := Fact.emi_amount (fact m).
Definition payment_delay_days (m : row) : Z := Fact.payment_delay_days (fact m).
End Row.
Arguments row : clear implicits.
End Merged.

(** A row of [agg_df] after [reset_index] and [rename]. *)
Module Summary.
Section Row.
Context {float : Type}.
Record row : Type := {
  region : string;
  total_loan_amount : float;
  total_outstanding_amount : float;
  total_emi_amount : float;
  avg_payment_delay : float;
  customer_count : Z
}.
End Row.
Arguments row : clear implicits.
End Summary.

(** The module-level constants. All five are read with [os.environ.get]:
    an absent variable gives the default, or [None] where there is none. *)
Record config : Type := {
  BUCKET_NAME : option string;
  SILVER_PREFIX : string;
  GOLD_PREFIX : string;
  RDS_SECRET_NAME : option string;
  RDS_Host : option string
}.

Definition config_of (env : environ) : config :=
  {| BUCKET_NAME := environ_get env "BUCKET_NAME";
     SILVER_PREFIX := environ_get_default env "SILVER_PREFIX" "Silver/";
     GOLD_PREFIX := environ_get_default env "GOLD_PREFIX" "Gold/";
     RDS_SECRET_NAME := environ_get env "DB_SECRET_NAME";
     RDS_Host := environ_get env "DB_HOST" |}.

(** Reading the five settings raises for no environment. The two boto3
    clients of lines 13-14 are taken as constructed: the Lambda runtime
    gives them their region and credentials. *)
Definition load_module (env : environ) : result config :=
  inr (config_of env).

(** [str.endswith] *)
Definition endswith (s suffix : string) : bool :=
  let n := String.length s in
  let m := String.length suffix in
  (m <=? n)%nat && String.eqb (String.substring (n - m) m s) suffix.

(** [pd.merge(left, right, on=key, how="left")]: every left row, in order,
    once per right row with an equal key (in the order of the right frame),
    or once with [null] when there is none. Missing keys match each other,
    as they do in pandas. *)
Definition merge_left {L R K : Type} `{EqDecision K}
    (lkey : L → K) (rkey : R → K) (left : list L) (right : list R)
    : list (L * option R) :=
  l ← left;
  match filter (λ r, rkey r = lkey l) right with
  | [] => [(l, None)]
  | matches => (λ r, (l, Some r)) <$> matches
  end.

(** [DataFrame.groupby(key)] with its defaults [sort=True], [dropna=True]:
    the rows are split by key in one pass; a row goes to the end of the
    group of its key, a new key opens a group, and a row whose key is
    missing goes to no group. The groups are then ordered by key. *)
Fixpoint group_insert {A : Type} (k : string) (r : A)
    (groups : list (string * list A)) : list (string * list A) :=
  match groups with
  | [] => [(k, [r])]
  | (k', rs) :: rest =>
      if decide (k = k') then (k', rs ++ [r]) :: rest
      else (k', rs) :: group_insert k r rest
  end.

Definition split_groups {A : Type} (key : A → option string) (df : list A)
    : list (string * list A) :=
  foldl (λ groups r,
           match key r with
           | Some k => group_insert k r groups
           | None => groups
           end) [] df.

(** The rows of the first group of [k]; none when there is no such group. *)
Fixpoint group_rows {A : Type} (k : string) (groups : list (string * list A))
    : list A :=
  match groups with
  | [] => []
  | (k', rs) :: rest => if decide (k = k') then rs else group_rows k rest
  end.

Definition key_le {A : Type} (g1 g2 : string * A) : Prop :=
  String.le g1.1 g2.1.

#[global] Instance key_le_dec {A : Type} : RelDecision (@key_le A).
Proof. intros g1 g2. unfold key_le. apply _. Defined.

Definition groupby {A : Type} (key : A → option string) (df : list A)
    : list (string * list A) :=
  merge_sort key_le (split_groups key df).

(** The pandas dtypes and the SQL type the loader gives each
    (lines 68-78). *)
Inductive dtype : Type := int64 | float64 | bool_ | datetime64 | object_.

Definition is_integer_dtype (d : dtype) : bool :=
  match d with int64 => true | _ => false end.
Definition is_float_dtype (d : dtype) : bool :=
  match d with float64 => true | _ => false end.
Definition is_bool_dtype (d : dtype) : bool :=
  match d with bool_ => true | _ => false end.
Definition is_datetime64_any_dtype (d : dtype) : bool :=
  match d with datetime64 => true | _ => false end.

Definition column_with_type (col : string) (d : dtype) : string :=
  if is_integer_dtype d then col +:+ " INTEGER"
  else if is_float_dtype d then col +:+ " FLOAT"
  else if is_bool_dtype d then col +:+ " BOOLEAN"
  else if is_datetime64_any_dtype d then col +:+ " TIMESTAMP"
  else col +:+ " TEXT".

(** [df.columns] and [df.dtypes] of [agg_df]. *)
Definition summary_columns : list string :=
  ["region"; "total_loan_amount"; "total_outstanding_amount";
   "total_emi_amount"; "avg_payment_delay"; "customer_count"].

Definition summary_dtypes : list dtype :=
  [object_; float64; float64; float64; float64; int64].

Definition create_table_sql (table_name : string) : string :=
  "CREATE TABLE IF NOT EXISTS " +:+ table_name +:+ " (" +:+
  String.concat ", "
    (zip_with column_with_type summary_columns summary_dtypes) +:+ ")".

Definition copy_sql (table_name : string) : string :=
  "COPY " +:+ table_name +:+ " (" +:+ String.concat ", " summary_columns +:+
  ") FROM STDIN WITH CSV".

Record response : Type := {
  status : string;
  message : string;
  record_count : nat
}.

Section Handler.
(** [float]: a float64, with the two reductions the aggregation applies to
    a column: [sum] over floats and [mean] over integers. [blob]: the bytes
    of an S3 object, with the two readings of a parquet file
    ([pq.read_table(..).to_pandas()] and the lower-casing of the column
    names), one per table. *)
Context {float blob : Type}.
Variable sum : list float → float.
Variable mean : list Z → float.
Variable read_fact : blob → list (Fact.row float).
Variable read_customer : blob → list Customer.row.

(** Line 104. *)
Definition merge (fact_df : list (Fact.row float)) (customer_df : list Customer.row)
    : list (Merged.row float) :=
  (λ p, {| Merged.fact := p.1; Merged.customer := p.2 |}) <$>
    merge_left Fact.customer_id Customer.customer_id fact_df customer_df.

(** [count]: the number of values of the column that are not missing. *)
Definition count {A : Type} (col : list (option A)) : Z :=
  Z.of_nat (length (filter is_Some col)).

(** Lines 107-122: one row per group, with the five reductions of the
    group's columns under their new names. *)
Definition aggregate (g : string * list (Merged.row float)) : Summary.row float :=
  {| Summary.region := g.1;
     Summary.total_loan_amount := sum (Merged.loan_amount <$> g.2);
     Summary.total_outstanding_amount := sum (Merged.outstanding_amount <$> g.2);
     Summary.total_emi_amount := sum (Merged.emi_amount <$> g.2);
     Summary.avg_payment_delay := mean (Merged.payment_delay_days <$> g.2);
     Summary.customer_count := count (Merged.customer_id <$> g.2) |}.

Definition region_summary (merged_df : list (Merged.row float))
    : list (Summary.row float) :=
  aggregate <$> groupby Merged.region merged_df.

(** The rows of the join with region [k]. *)
Definition rows_of_region (k : option string) (merged_df : list (Merged.row float))
    : list (Merged.row float) :=
  filter (λ m, Merged.region m = k) merged_df.

(** An entry of [page["Contents"]]. *)
Record s3_object : Type := { Key : string }.

(** A page of the listing; [Contents] is absent from a page without keys. *)
Record page : Type := { Contents : option (list s3_object) }.

(** The effects of the handler, each logged when it completed. *)
Inductive effect : Type :=
  | PutObject (Bucket Key : string) (Body : list (Summary.row float))
  | Execute (sql : string)
  | CopyExpert (sql : string) (rows : list (Summary.row float))
  | Commit.

(** The collaborators. Listing and reading S3 within a bucket succeed;
    [put_object], the secret store and the database may fail. *)
Record world : Type := {
  list_objects_v2 : string → string → list page;
  get_object : string → string → blob;
  put_object_failure : string → string → option error;
  get_secret_value : string → result (gmap string string);
  connect_failure : option string → string → string → option error;
  execute_failure : string → option error;
  copy_expert_failure : string → list (Summary.row float) → option error
}.

(** The keys of a listing that the reader takes for parquet fragments. *)
Definition parquet_keys (pages : list page) : list string :=
  p ← pages;
  obj ← default [] (Contents p);
  if endswith (Key obj) ".parquet" then [Key obj] else [].

(** Lines 24-40. The bucket is [None] when [BUCKET_NAME] is not set;
    boto3 then rejects the request. *)
Definition read_parquet_folder_from_s3 {A : Type} (to_pandas : blob → list A)
    (w : world) (bucket : option string) (folder_prefix : string)
    : result (list A) :=
  match bucket with
  | None => inl ParamValidationError
  | Some b =>
      let pages := list_objects_v2 w b folder_prefix in
      let dfs :=
        p ← pages;
        obj ← default [] (Contents p);
        if endswith (Key obj) ".parquet"
        then [to_pandas (get_object w b (Key obj))]
        else [] in
      match dfs with
      | [] => inl NotFoundError
      | _ => inr (concat dfs)
      end
  end.

(** Lines 43-47. *)
Definition write_parquet_to_s3 (w : world) (df : list (Summary.row float))
    (bucket : option string) (key : string) : M effect unit :=
  match bucket with
  | None => raise ParamValidationError
  | Some b =>
      match put_object_failure w b key with
      | Some e => raise e
      | None => emit (PutObject b key df)
      end
  end.

(** Lines 50-52; the result is the decoded JSON object of the secret. *)
Definition get_rds_credentials (w : world) (secret_name : option string)
    : result (gmap string string) :=
  match secret_name with
  | None => inl ParamValidationError
  | Some n => get_secret_value w n
  end.

(** [creds[key]] *)
Definition creds_getitem (creds : gmap string string) (key : string)
    : result string :=
  match creds !! key with
  | Some v => inr v
  | None => inl SecretRetrievalError
  end.

Definition maybe_fail (failure : option error) (ev : list effect)
    : M effect unit :=
  match failure with
  | Some e => raise e
  | None => λ log, (inr tt, log ++ ev)
  end.

(** Lines 55-95. The rows reach the database through a temporary CSV file;
    the log keeps the rows themselves. *)
Definition load_df_to_rds_copy (cfg : config) (w : world)
    (df : list (Summary.row float)) (table_name : string) : M effect unit :=
  do creds <- lift (get_rds_credentials w (RDS_SECRET_NAME cfg));
  do user <- lift (creds_getitem creds "username");
  do password <- lift (creds_getitem creds "password");
  do_ maybe_fail (connect_failure w (RDS_Host cfg) user password) [];
  do_ maybe_fail (execute_failure w (create_table_sql table_name))
        [Execute (create_table_sql table_name)];
  do_ emit Commit;
  do_ maybe_fail (copy_expert_failure w (copy_sql table_name) df)
        [CopyExpert (copy_sql table_name) df];
  do_ emit Commit;
  ret tt.

(** Lines 98-134. *)
Definition lambda_handler (cfg : config) (w : world) : M effect response :=
  do fact_df <- lift (read_parquet_folder_from_s3 read_fact w (BUCKET_NAME cfg)
                        (SILVER_PREFIX cfg +:+ "fact_loan_payment/"));
  do customer_df <- lift (read_parquet_folder_from_s3 read_customer w
                            (BUCKET_NAME cfg)
                            (SILVER_PREFIX cfg +:+ "dim_customer/"));
  let merged_df := merge fact_df customer_df in
  let agg_df := region_summary merged_df in
  do_ write_parquet_to_s3 w agg_df (BUCKET_NAME cfg)
        (GOLD_PREFIX cfg +:+ "region_summary/data.parquet");
  do_ load_df_to_rds_copy cfg w agg_df "customer";
  ret {| status := "Success";
         message := "Aggregated region summary saved to Gold layer and customer data loaded into RDS";
         record_count := length agg_df |}.

(** One cold start: the module is loaded, then the handler runs. *)
Definition invoke (env : environ) (w : world) : result response * list effect :=
  match load_module env with
  | inl e => (inl e, [])
  | inr cfg => run (lambda_handler cfg w)
  end.

(** The effects of lines 125-128 in their order, for the bucket [b] and the
    summary [agg_df]: the gold artifact, then the table and the rows, each
    committed. *)
Definition planned_effects (b : string) (cfg : config)
    (agg_df : list (Summary.row float)) : list effect :=
  [ PutObject b (GOLD_PREFIX cfg +:+ "region_summary/data.parquet") agg_df;
    Execute (create_table_sql "customer");
    Commit;
    CopyExpert (copy_sql "customer") agg_df;
    Commit ].

(** The response of lines 130-134 for a summary of [n] rows. *)
Definition success (n : nat) : response :=
  {| status := "Success";
     message := "Aggregated region summary saved to Gold layer and customer data loaded into RDS";
     record_count := n |}.

End Handler.

End Aggregator.

(** ** From the Normalizer to the Aggregator

    The Aggregator reads the tables of the Normalizer back with their
    column names in lower case (line 36 of the Aggregator): a column of a
    silver table is the column of the Aggregator's frame with the
    lower-cased name. *)

Module Silver.

(** [str.lower] on the letters of a column name. *)
Definition lower_char (c : Ascii.ascii) : Ascii.ascii :=
  let n := Ascii.nat_of_ascii c in
  if (65 <=? n)%nat && (n <=? 90)%nat then Ascii.ascii_of_nat (n + 32) else c.

Fixpoint lower (s : string) : string :=
  match s with
  | EmptyString => EmptyString
  | String c s' => String (lower_char c) (lower s')
  end.

(** The columns the Normalizer selects for the customer and the fact table
    (lines 30-32 and 54-58). *)
Definition dim_customer_columns : list string :=
  ["Customer_ID"; "Name"; "Region"; "Contact_Number"; "Email";
   "Customer_Score"; "Risk_Level"].

Definition fact_loan_payment_columns : list string :=
  ["Customer_ID"; "Account_Number"; "Loan_Amount"; "Outstanding_Amount";
   "EMI_Amount"; "Due_Date"; "Payment_Status"; "Last_Payment_Date";
   "Payment_Delay_Days"; "Payment_On_Time_Flag"; "Payment_Behavior"].

(** A written customer row as the Aggregator reads it. *)
Definition read_customer_row (r : Normalizer.DimCustomer.row)
    : Aggregator.Customer.row :=
  {| Aggregator.Customer.customer_id := Normalizer.DimCustomer.Customer_ID r;
     Aggregator.Customer.name := Normalizer.DimCustomer.Name r;
     Aggregator.Customer.region := Normalizer.DimCustomer.Region r;
     Aggregator.Customer.contact_number :=
       Normalizer.DimCustomer.Contact_Number r;
     Aggregator.Customer.email := Normalizer.DimCustomer.Email r;
     Aggregator.Customer.customer_score :=
       Normalizer.DimCustomer.Customer_Score r;
     Aggregator.Customer.risk_level := Normalizer.DimCustomer.Risk_Level r |}.

(** A written fact row as the Aggregator reads it. *)
Definition read_fact_row {float : Type}
    (r : Normalizer.FactLoanPayment.row float) : Aggregator.Fact.row float :=
  {| Aggregator.Fact.customer_id := Normalizer.FactLoanPayment.Customer_ID r;
     Aggregator.Fact.account_number :=
       Normalizer.FactLoanPayment.Account_Number r;
     Aggregator.Fact.loan_amount := Normalizer.FactLoanPayment.Loan_Amount r;
     Aggregator.Fact.outstanding_amount :=
       Normalizer.FactLoanPayment.Outstanding_Amount r;
     Aggregator.Fact.emi_amount := Normalizer.FactLoanPayment.EMI_Amount r;
     Aggregator.Fact.due_date := Normalizer.FactLoanPayment.Due_Date r;
     Aggregator.Fact.payment_status :=
       Normalizer.FactLoanPayment.Payment_Status r;
     Aggregator.Fact.last_payment_date :=
       Normalizer.FactLoanPayment.Last_Payment_Date r;
     Aggregator.Fact.payment_delay_days :=
       Normalizer.FactLoanPayment.Payment_Delay_Days r;
     Aggregator.Fact.payment_on_time_flag :=
       Some (Normalizer.FactLoanPayment.Payment_On_Time_Flag r);
     Aggregator.Fact.payment_behavior :=
       Some (Normalizer.FactLoanPayment.Payment_Behavior r) |}.

End Silver.

(** ** Concrete runs

    An instance of the parameters, used to run the handlers on explicit
    inputs without missing values: floats are rationals and every cell of
    the five coerced columns is a number. *)

Module Scenario.

Inductive csv_cell : Type :=
  | Num (q : Q).

Definition astype_float (c : csv_cell) : option Q :=
  match c with
  | Num q => Some q
  end.

Definition astype_int (c : csv_cell) : option Z :=
  match c with
  | Num q => Some (Z.quot (Qnum q) (Zpos (Qden q)))
  end.

Definition gt0 (q : Q) : bool := negb (Qle_bool q 0).

Definition sum (col : list Q) : Q := foldl Qplus 0%Q col.

Definition mean (col : list Z) : Q :=
  Qred (Qmake (foldl Z.add 0 col) (Pos.of_nat (length col))).

(** A raw record of customer [cid] in [region] on account [acct]. *)
Definition raw (cid region acct : string) (loan delay : csv_cell)
    : Normalizer.Raw.row csv_cell csv_cell :=
  {| Normalizer.Raw.Customer_ID := Some cid;
     Normalizer.Raw.Name := Some "Asha";
     Normalizer.Raw.Region := Some region;
     Normalizer.Raw.Contact_Number := None;
     Normalizer.Raw.Email := None;
     Normalizer.Raw.Customer_Score := Num (700 # 1);
     Normalizer.Raw.Risk_Level := Some "Low";
     Normalizer.Raw.Account_Number := Some acct;
     Normalizer.Raw.Account_Type := Some "Savings";
     Normalizer.Raw.Loan_Type := Some "Home";
     Normalizer.Raw.Loan_Amount := loan;
     Normalizer.Raw.Outstanding_Amount := Num (50 # 1);
     Normalizer.Raw.EMI_Amount := Num (10 # 1);
     Normalizer.Raw.Due_Date := Some "2024-01-05";
     Normalizer.Raw.Payment_Status := Some "Paid";
     Normalizer.Raw.Last_Payment_Date := Some "2024-01-04";
     Normalizer.Raw.Payment_Delay_Days := delay |}.

(** Four records: one with no loan amount, two of the same customer and
    account, one paid a day early. *)
Definition bronze : list (Normalizer.Raw.row csv_cell csv_cell) :=
  [ raw "C1" "North" "A1" (Num (0 # 1)) (Num (3 # 1));
    raw "C2" "North" "A2" (Num (100 # 1)) (Num (0 # 1));
    raw "C2" "North" "A2" (Num (200 # 1)) (Num (15 # 1));
    raw "C3" "South" "A3" (Num (300 # 1)) (Num (-1 # 1)) ].

(** The fact row of the record paid a day early. *)
Definition early_fact_row : Normalizer.FactLoanPayment.row Q :=
  {| Normalizer.FactLoanPayment.Customer_ID := Some "C3";
     Normalizer.FactLoanPayment.Account_Number := Some "A3";
     Normalizer.FactLoanPayment.Loan_Amount := 300 # 1;
     Normalizer.FactLoanPayment.Outstanding_Amount := 50 # 1;
     Normalizer.FactLoanPayment.EMI_Amount := 10 # 1;
     Normalizer.FactLoanPayment.Due_Date := Some "2024-01-05";
     Normalizer.FactLoanPayment.Payment_Status := Some "Paid";
     Normalizer.FactLoanPayment.Last_Payment_Date := Some "2024-01-04";
     Normalizer.FactLoanPayment.Payment_Delay_Days := -1;
     Normalizer.FactLoanPayment.Payment_On_Time_Flag := "No";
     Normalizer.FactLoanPayment.Payment_Behavior := "Average" |}.

Definition normalizer_cfg : Normalizer.config :=
  {| Normalizer.BUCKET_NAME := "loans";
     Normalizer.BRONZE_PREFIX := "Bronze/";
     Normalizer.SILVER_PREFIX := "Silver/";
     Normalizer.ATHENA_DATABASE := "loan_analytics" |}.

Definition normalizer_env : environ :=
  list_to_map [ ("BUCKET_NAME", "loans"); ("BRONZE_PREFIX", "Bronze/");
                ("SILVER_PREFIX", "Silver/") ].

Definition normalizer_world (df : list (Normalizer.Raw.row csv_cell csv_cell))
    : Normalizer.world :=
  {| Normalizer.read_csv := λ _, inr df;
     Normalizer.to_parquet_failure := λ _, None |}.

Definition normalizer_run (df : list (Normalizer.Raw.row csv_cell csv_cell)) :=
  Normalizer.invoke astype_float astype_int gt0 normalizer_env
    (normalizer_world df).

(** The four records after the coercion. *)
Definition bronze_typed : list (Normalizer.Raw.row Q Z) :=
  Eval vm_compute in
    default [] (mapM (Normalizer.coerce_row astype_float astype_int) bronze).

(** The same collaborators, with a store that refuses the account table. *)
Definition normalizer_world_failing
    (df : list (Normalizer.Raw.row csv_cell csv_cell)) : Normalizer.world :=
  {| Normalizer.read_csv := λ _, inr df;
     Normalizer.to_parquet_failure := λ p,
       if String.eqb p "s3://loans/Silver/dim_account/"
       then Some StorageWriteError else None |}.

(** The Aggregator: an S3 object is one of the two silver tables. *)
Definition blob : Type :=
  list (Aggregator.Fact.row Q) + list Aggregator.Customer.row.

Definition read_fact (b : blob) : list (Aggregator.Fact.row Q) :=
  match b with
  | inl rows => rows
  | inr _ => []
  end.

Definition read_customer (b : blob) : list Aggregator.Customer.row :=
  match b with
  | inl _ => []
  | inr rows => rows
  end.

Definition fact (cid : string) (loan : Q) (delay : Z) : Aggregator.Fact.row Q :=
  {| Aggregator.Fact.customer_id := Some cid;
     Aggregator.Fact.account_number := Some "A1";
     Aggregator.Fact.loan_amount := loan;
     Aggregator.Fact.outstanding_amount := 50 # 1;
     Aggregator.Fact.emi_amount := 10 # 1;
     Aggregator.Fact.due_date := Some "2024-01-05";
     Aggregator.Fact.payment_status := Some "Paid";
     Aggregator.Fact.last_payment_date := Some "2024-01-04";
     Aggregator.Fact.payment_delay_days := delay;
     Aggregator.Fact.payment_on_time_flag := Some "No";
     Aggregator.Fact.payment_behavior := Some "Average" |}.

Definition customer (cid region : string) : Aggregator.Customer.row :=
  {| Aggregator.Customer.customer_id := Some cid;
     Aggregator.Customer.name := Some "Asha";
     Aggregator.Customer.region := Some region;
     Aggregator.Customer.contact_number := None;
     Aggregator.Customer.email := None;
     Aggregator.Customer.customer_score := 700;
     Aggregator.Customer.risk_level := Some "Low" |}.

(** Two facts of a customer in North, one fact of a customer that is in no
    customer table. *)
Definition facts : list (Aggregator.Fact.row Q) :=
  [ fact "C2" (100 # 1) 0; fact "C2" (200 # 1) 15; fact "C9" (40 # 1) 3 ].

Definition customers : list Aggregator.Customer.row :=
  [ customer "C2" "North"; customer "C3" "South" ].

(** A bucket: its keys with their objects, in listing order. *)
Definition silver_store : list (string * blob) :=
  [ ("Silver/dim_customer/part-0.snappy.parquet", inr customers);
    ("Silver/fact_loan_payment/part-0.snappy.parquet", inl facts) ].

(** The same bucket before the Normalizer wrote the customer table: the
    prefix holds a marker file only. *)
Definition silver_store_without_customers : list (string * blob) :=
  [ ("Silver/dim_customer/_SUCCESS", inr []);
    ("Silver/fact_loan_payment/part-0.snappy.parquet", inl facts) ].

Definition aggregator_world (store : list (string * blob))
    : Aggregator.world (float := Q) (blob := blob) :=
  {| Aggregator.list_objects_v2 := λ _ prefix,
       match filter (λ o, String.prefix prefix o.1 = true) store with
       | [] => [ {| Aggregator.Contents := None |} ]
       | objs =>
           [ {| Aggregator.Contents :=
                  Some ((λ o, {| Aggregator.Key := o.1 |}) <$> objs) |} ]
       end;
     Aggregator.get_object := λ _ key,
       default (inl []) (snd <$> list_find (λ o, o.1 = key) store ≫= λ p,
                           Some p.2);
     Aggregator.put_object_failure := λ _ _, None;
     Aggregator.get_secret_value := λ _,
       inr (list_to_map [ ("username", "etl"); ("password", "pw") ]);
     Aggregator.connect_failure := λ _ _ _, None;
     Aggregator.execute_failure := λ _, None;
     Aggregator.copy_expert_failure := λ _ _, None |}.

Definition aggregator_env : environ :=
  list_to_map [ ("BUCKET_NAME", "loans"); ("DB_SECRET_NAME", "rds/etl");
                ("DB_HOST", "db.internal") ].

(** An environment without the secret name and the database host. *)
Definition aggregator_env_without_db : environ :=
  list_to_map [ ("BUCKET_NAME", "loans") ].

(** The fact of the customer that is in no customer table, alone. *)
Definition unmatched_facts : list (Aggregator.Fact.row Q) :=
  [ fact "C9" (40 # 1) 3 ].

(** The row of North in the summary of [facts] and [customers]. *)
Definition north_row : Aggregator.Summary.row Q :=
  {| Aggregator.Summary.region := "North";
     Aggregator.Summary.total_loan_amount := 300 # 1;
     Aggregator.Summary.total_outstanding_amount := 100 # 1;
     Aggregator.Summary.total_emi_amount := 20 # 1;
     Aggregator.Summary.avg_payment_delay := 15 # 2;
     Aggregator.Summary.customer_count := 2 |}.

Definition aggregator_cfg : Aggregator.config :=
  {| Aggregator.BUCKET_NAME := Some "loans";
     Aggregator.SILVER_PREFIX := "Silver/";
     Aggregator.GOLD_PREFIX := "Gold/";
     Aggregator.RDS_SECRET_NAME := Some "rds/etl";
     Aggregator.RDS_Host := Some "db.internal" |}.

(** The decoded secret of [aggregator_world]. *)
Definition creds : gmap string string :=
  list_to_map [ ("username", "etl"); ("password", "pw") ].

(** The same collaborators, with a database that refuses the bulk copy. *)
Definition aggregator_world_copy_fails (store : list (string * blob))
    : Aggregator.world (float := Q) (blob := blob) :=
  {| Aggregator.list_objects_v2 :=
       Aggregator.list_objects_v2 (aggregator_world store);
     Aggregator.get_object := Aggregator.get_object (aggregator_world store);
     Aggregator.put_object_failure := λ _ _, None;
     Aggregator.get_secret_value := λ _, inr creds;
     Aggregator.connect_failure := λ _ _ _, None;
     Aggregator.execute_failure := λ _, None;
     Aggregator.copy_expert_failure := λ _ _, Some BulkLoadError |}.

Definition aggregator_run (env : environ) (store : list (string * blob)) :=
  Aggregator.invoke sum mean read_fact read_customer env
    (aggregator_world store).

End Scenario.

(** ** Runs with missing values and texts

    A second instance, for the coercions: the cells are what [read_csv]
    returns with its defaults, and float64 has its NaN. *)

Module Pandas.

Inductive float64 : Type :=
  | Finite (q : Q)
  | NaN.

(** The fields [read_csv] reads as the missing value ([na_values], with
    [keep_default_na=True]); the first is the empty field. *)
Definition na_values : list string :=
  [ EmptyString; "#N/A"; "#N/A N/A"; "#NA"; "-1.#IND"; "-1.#QNAN"; "-NaN";
    "-nan"; "1.#IND"; "1.#QNAN"; "<NA>"; "N/A"; "NA"; "NULL"; "NaN";
    "None"; "n/a"; "nan"; "null" ].

(** A cell of the frame [read_csv] returns: the number of a numeric
    literal, the missing value NaN, or the text of a field that is neither
    a number nor a marker of a missing value, in a column of dtype
    object. *)
Inductive cell : Type :=
  | Number (q : Q)
  | Missing
  | Text (s : string).

(** The cell of a field that is not a numeric literal. *)
Definition read_text (s : string) : cell :=
  if decide (s ∈ na_values) then Missing else Text s.

(** [astype(float)]: NaN is a float; a text that is no number raises
    [ValueError]. *)
Definition astype_float (c : cell) : option float64 :=
  match c with
  | Number q => Some (Finite q)
  | Missing => Some NaN
  | Text _ => None
  end.

(** [astype(int)]: a number is truncated towards zero and must fit int64;
    NaN and a text that is no number raise. *)
Definition astype_int (c : cell) : option Z :=
  match c with
  | Number q =>
      let z := Z.quot (Qnum q) (Zpos (Qden q)) in
      if (- 2 ^ 63 <=? z) && (z <? 2 ^ 63) then Some z else None
  | Missing => None
  | Text _ => None
  end.

(** [x > 0]: false for NaN. *)
Definition gt0 (x : float64) : bool :=
  match x with
  | Finite q => negb (Qle_bool q 0)
  | NaN => false
  end.

(** A raw record of customer [cid] with the given loan amount and delay. *)
Definition raw (cid : string) (loan delay : cell)
    : Normalizer.Raw.row cell cell :=
  {| Normalizer.Raw.Customer_ID := Some cid;
     Normalizer.Raw.Name := Some "Asha";
     Normalizer.Raw.Region := Some "North";
     Normalizer.Raw.Contact_Number := None;
     Normalizer.Raw.Email := None;
     Normalizer.Raw.Customer_Score := Number (700 # 1);
     Normalizer.Raw.Risk_Level := Some "Low";
     Normalizer.Raw.Account_Number := Some "A1";
     Normalizer.Raw.Account_Type := Some "Savings";
     Normalizer.Raw.Loan_Type := Some "Home";
     Normalizer.Raw.Loan_Amount := loan;
     Normalizer.Raw.Outstanding_Amount := Number (50 # 1);
     Normalizer.Raw.EMI_Amount := Number (10 # 1);
     Normalizer.Raw.Due_Date := Some "2024-01-05";
     Normalizer.Raw.Payment_Status := Some "Paid";
     Normalizer.Raw.Last_Payment_Date := Some "2024-01-04";
     Normalizer.Raw.Payment_Delay_Days := delay |}.

(** A record whose loan amount field is [n/a]. *)
Definition record_without_amount : Normalizer.Raw.row cell cell :=
  raw "C4" (read_text "n/a") (Number (0 # 1)).

(** A record whose loan amount field is the text [abc]. *)
Definition record_with_text : Normalizer.Raw.row cell cell :=
  raw "C5" (read_text "abc") (Number (0 # 1)).

(** A record whose delay field is empty. *)
Definition record_without_delay : Normalizer.Raw.row cell cell :=
  raw "C6" (Number (100 # 1)) (read_text EmptyString).

Definition bronze_without_amount : list (Normalizer.Raw.row cell cell) :=
  [ raw "C2" (Number (100 # 1)) (Number (0 # 1)); record_without_amount ].

Definition bronze_with_text : list (Normalizer.Raw.row cell cell) :=
  [ raw "C2" (Number (100 # 1)) (Number (0 # 1)); record_with_text ].

Definition bronze_without_delay : list (Normalizer.Raw.row cell cell) :=
  [ raw "C2" (Number (100 # 1)) (Number (0 # 1)); record_without_delay ].

Definition world (df : list (Normalizer.Raw.row cell cell))
    : Normalizer.world :=
  {| Normalizer.read_csv := λ _, inr df;
     Normalizer.to_parquet_failure := λ _, None |}.

Definition run (df : list (Normalizer.Raw.row cell cell)) :=
  Normalizer.invoke astype_float astype_int gt0 Scenario.normalizer_env
    (world df).

End Pandas.

(** * Properties *)

(** ** The effect monad *)

Lemma bind_inl {E A B} (m : M E A) (k : A → M E B) log e log' :
  m log = (inl e, log') → bind m k log = (inl e, log').
Proof. intros Hm. unfold bind. by rewrite Hm. Qed.

Lemma bind_inr {E A B} (m : M E A) (k : A → M E B) log a log' :
  m log = (inr a, log') → bind m k log = k a log'.
Proof. intros Hm. unfold bind. by rewrite Hm. Qed.

(** Membership in an explicit list, one case per element. *)
Ltac elem_cases H :=
  repeat (apply elem_of_cons in H as [->|H]);
  try (apply elem_of_nil in H; destruct H).

(** ** Deduplication *)

Section DropDuplicates.
Context {A K : Type} `{EqDecision K} (key : A → K).

Lemma drop_duplicates_from_sublist seen df r :
  r ∈ Normalizer.drop_duplicates_from key seen df → r ∈ df ∧ key r ∉ seen.
Proof.
  revert seen. induction df as [|x df IH]; intros seen; simpl.
  - by intros ?%elem_of_nil.
  - destruct (decide (key x ∈ seen)) as [Hin|Hout].
    + intros [? ?]%IH. split; [by right | done].
    + intros [->|Hr]%elem_of_cons.
      * split; [by left | done].
      * apply IH in Hr as [? Hseen]. split; [by right |].
        intros ?. apply Hseen. by right.
Qed.

Lemma drop_duplicates_from_NoDup seen df :
  NoDup (key <$> Normalizer.drop_duplicates_from key seen df).
Proof.
  revert seen. induction df as [|x df IH]; intros seen; simpl.
  - constructor.
  - destruct (decide (key x ∈ seen)); [apply IH |].
    rewrite fmap_cons. constructor; [| apply IH].
    intros (r & Hk & Hr)%list_elem_of_fmap.
    apply drop_duplicates_from_sublist in Hr as [_ Hseen].
    apply Hseen. rewrite <- Hk. by left.
Qed.

(** Every key of the frame survives, on its first row. *)
Lemma drop_duplicates_from_complete seen df r :
  r ∈ df → key r ∉ seen →
  ∃ r', r' ∈ Normalizer.drop_duplicates_from key seen df ∧ key r' = key r.
Proof.
  revert seen. induction df as [|x df IH]; intros seen; simpl.
  - by intros ?%elem_of_nil.
  - intros [->|Hr]%elem_of_cons Hseen.
    + destruct (decide (key x ∈ seen)); [done |].
      exists x. split; [by left | done].
    + destruct (decide (key x ∈ seen)); [by apply IH |].
      destruct (decide (key r = key x)) as [Heq|Hne].
      * exists x. split; [by left | done].
      * destruct (IH (key x :: seen) Hr) as (r' & ? & ?).
        { intros [?|?]%elem_of_cons; done. }
        exists r'. split; [by right | done].
Qed.

End DropDuplicates.

(** ** The Normalizer *)

Module NormalizerSpec.
Import Normalizer.

Lemma payment_behavior_cases (x : Z) :
  (x = 0 ∧ payment_behavior x = "Good") ∨
  (x ≠ 0 ∧ x ≤ 10 ∧ payment_behavior x = "Average") ∨
  (10 < x ∧ payment_behavior x = "Delayed").
Proof.
  unfold payment_behavior.
  destruct (Z.eqb_spec x 0); [by left |].
  destruct (Z.leb_spec x 10); [right; left | right; right]; auto with lia.
Qed.

Section Spec.
Context {cell float : Type}.
Variable astype_float : cell → option float.
Variable astype_int : cell → option Z.
Variable gt0 : float → bool.

Abbreviation coerce_row := (coerce_row astype_float astype_int).
Abbreviation coerce := (coerce astype_float astype_int).
Abbreviation retain := (retain gt0).
Abbreviation invoke := (invoke astype_float astype_int gt0).
Abbreviation lambda_handler := (lambda_handler astype_float astype_int gt0).
Abbreviation retained_from := (retained_from astype_float astype_int gt0).
Abbreviation silver := (silver gt0).
Abbreviation rows_after := (rows_after gt0).

(** What a run wrote: the three tables of the coerced input, in order, up
    to the first write that failed. *)
Lemma handler_written cfg (w : world) :
  let log := (run (lambda_handler cfg w)).2 in
  log = [] ∨
  ∃ raw typed n,
    read_csv w (bronze_path cfg) = inr raw ∧
    mapM coerce_row raw = Some typed ∧
    (written_customer_rows log, written_account_rows log,
     written_fact_rows log) = rows_after n typed.
Proof.
  unfold run, lambda_handler, bind, lift, Normalizer.coerce, to_parquet,
    emit, raise, ret.
  destruct (read_csv w (bronze_path cfg)) as [e|raw]; simpl; [by left |].
  destruct (mapM coerce_row raw) as [typed|] eqn:Hm; simpl; [| by left].
  right. exists raw, typed. fold (silver typed).
  repeat match goal with
         | |- context [to_parquet_failure w ?p] =>
             destruct (to_parquet_failure w p); simpl
         end.
  - by exists 0%nat.
  - exists 1%nat. by rewrite !app_nil_r.
  - exists 2%nat. by rewrite !app_nil_r.
  - exists 3%nat. by rewrite !app_nil_r.
Qed.

Lemma invoke_written env (w : world) :
  let log := (invoke env w).2 in
  log = [] ∨
  ∃ typed n,
    mapM coerce_row (input_of env w) = Some typed ∧
    (written_customer_rows log, written_account_rows log,
     written_fact_rows log) = rows_after n typed.
Proof.
  unfold Normalizer.invoke, input_of.
  destruct (load_module env) as [e|cfg]; [by left |].
  destruct (handler_written cfg w) as [?|(raw & typed & n & Hr & ? & ?)];
    [by left |].
  right. exists typed, n. by rewrite Hr.
Qed.

Lemma coerced_sources raw typed s :
  mapM coerce_row raw = Some typed →
  s ∈ typed ↔ ∃ x, x ∈ raw ∧ coerce_row x = Some s.
Proof.
  intros Hm%mapM_Some. split.
  - intros [i Hi]%list_elem_of_lookup.
    destruct (Forall2_lookup_r _ _ _ _ _ Hm Hi) as (x & Hx & ?).
    exists x. split; [by eapply list_elem_of_lookup_2 | done].
  - intros (x & [i Hi]%list_elem_of_lookup & Hx).
    destruct (Forall2_lookup_l _ _ _ _ _ Hm Hi) as (s' & Hs' & Hx').
    rewrite Hx in Hx'. injection Hx' as <-.
    by eapply list_elem_of_lookup_2.
Qed.

(** The rows of [silver]: the retained rows with their derived columns. *)
Lemma elem_of_silver raw typed d :
  mapM coerce_row raw = Some typed →
  d ∈ silver typed ↔ ∃ s, retained_from raw s ∧ d = derive s.
Proof.
  intros Hm. unfold silver, Normalizer.retain, Normalizer.retained_from.
  rewrite list_elem_of_fmap. split.
  - intros (s & -> & [Hgt Hs]%list_elem_of_filter).
    apply (coerced_sources _ _ _ Hm) in Hs as (x & ? & ?).
    exists s. split; [by exists x | done].
  - intros (s & (x & ? & ? & ?) & ->). exists s. split; [done |].
    apply list_elem_of_filter. split; [done |].
    apply (coerced_sources _ _ _ Hm). by exists x.
Qed.

Lemma elem_of_fact_loan_payment raw typed r :
  mapM coerce_row raw = Some typed →
  r ∈ fact_loan_payment (silver typed) ↔
  ∃ s, retained_from raw s ∧ r = fact_columns (derive s).
Proof.
  intros Hm. unfold fact_loan_payment. rewrite list_elem_of_fmap. split.
  - intros (d & -> & (s & ? & ->)%(elem_of_silver _ _ _ Hm)). by exists s.
  - intros (s & ? & ->). exists (derive s). split; [done |].
    apply (elem_of_silver _ _ _ Hm). by exists s.
Qed.

Lemma elem_of_dim_customer raw typed r :
  mapM coerce_row raw = Some typed →
  r ∈ dim_customer (silver typed) →
  ∃ s, retained_from raw s ∧ r = customer_columns (derive s).
Proof.
  intros Hm [Hr _]%drop_duplicates_from_sublist.
  apply list_elem_of_fmap in Hr as (d & -> & Hd).
  apply (elem_of_silver _ _ _ Hm) in Hd as (s & ? & ->). by exists s.
Qed.

Lemma elem_of_dim_account raw typed r :
  mapM coerce_row raw = Some typed →
  r ∈ dim_account (silver typed) →
  ∃ s, retained_from raw s ∧ r = account_columns (derive s).
Proof.
  intros Hm [Hr _]%drop_duplicates_from_sublist.
  apply list_elem_of_fmap in Hr as (d & -> & Hd).
  apply (elem_of_silver _ _ _ Hm) in Hd as (s & ? & ->). by exists s.
Qed.

(** Every written fact row is the fact row of a retained input row. *)
Lemma written_fact_row env (w : world) r :
  r ∈ written_fact_rows (invoke env w).2 →
  ∃ s, retained_from (input_of env w) s ∧ r = fact_columns (derive s).
Proof.
  destruct (invoke_written env w) as [->|(typed & n & Hm & Hrows)];
    [by intros ?%elem_of_nil |].
  injection Hrows as _ _ ->. case_decide; [| by intros ?%elem_of_nil].
  by intros ?%(elem_of_fact_loan_payment _ _ _ Hm).
Qed.

Lemma written_customer_row env (w : world) r :
  r ∈ written_customer_rows (invoke env w).2 →
  ∃ s, retained_from (input_of env w) s ∧ r = customer_columns (derive s).
Proof.
  destruct (invoke_written env w) as [->|(typed & n & Hm & Hrows)];
    [by intros ?%elem_of_nil |].
  injection Hrows as -> _ _. case_decide; [| by intros ?%elem_of_nil].
  by intros ?%(elem_of_dim_customer _ _ _ Hm).
Qed.

Lemma written_account_row env (w : world) r :
  r ∈ written_account_rows (invoke env w).2 →
  ∃ s, retained_from (input_of env w) s ∧ r = account_columns (derive s).
Proof.
  destruct (invoke_written env w) as [->|(typed & n & Hm & Hrows)];
    [by intros ?%elem_of_nil |].
  injection Hrows as _ -> _. case_decide; [| by intros ?%elem_of_nil].
  by intros ?%(elem_of_dim_account _ _ _ Hm).
Qed.

(** C3 (as amended). Every fact row a run writes carries the label of its
    own delay: [Payment_Behavior] is a function of [Payment_Delay_Days], one
    of Good, Average and Delayed; it is Good exactly when the delay is 0,
    Delayed exactly when the delay exceeds 10, and Average exactly for every
    other delay, which for a delay that is not negative means
    [0 < delay <= 10]. *)
Theorem payment_behavior_thresholds env (w : world) r :
  r ∈ written_fact_rows (invoke env w).2 →
  let delay := FactLoanPayment.Payment_Delay_Days r in
  let behavior := FactLoanPayment.Payment_Behavior r in
  behavior = payment_behavior delay ∧
  (behavior = "Good" ∨ behavior = "Average" ∨ behavior = "Delayed") ∧
  (behavior = "Good" ↔ delay = 0) ∧
  (behavior = "Average" ↔ delay ≠ 0 ∧ delay ≤ 10) ∧
  (behavior = "Delayed" ↔ 10 < delay) ∧
  (0 ≤ delay → (behavior = "Average" ↔ 0 < delay ≤ 10)).
Proof.
  intros (s & _ & ->)%written_fact_row. simpl.
  destruct (payment_behavior_cases (Raw.Payment_Delay_Days s))
    as [[? ->]|[(? & ? & ->)|[? ->]]].
  all: repeat split; auto; try discriminate; try lia.
Qed.

(** C9. A fact row a run writes with a negative delay has the on-time flag
    No and the behavior Average. *)
Theorem negative_delay_is_average env (w : world) r :
  r ∈ written_fact_rows (invoke env w).2 →
  FactLoanPayment.Payment_Delay_Days r < 0 →
  FactLoanPayment.Payment_On_Time_Flag r = "No" ∧
  FactLoanPayment.Payment_Behavior r = "Average".
Proof.
  intros (s & _ & ->)%written_fact_row. simpl.
  unfold payment_on_time_flag, payment_behavior. intros Hneg.
  destruct (Z.eqb_spec (Raw.Payment_Delay_Days s) 0); [lia |].
  destruct (Z.leb_spec (Raw.Payment_Delay_Days s) 10); [done | lia].
Qed.

(** C4. Whatever a run writes to the three tables comes from input rows
    whose loan amount is greater than 0: every written customer, account and
    fact row is the projection of such a row, and a written fact row has
    itself a loan amount greater than 0. A row whose loan amount is not
    greater than 0 contributes to no table. *)
Theorem filter_invariant env (w : world) :
  let log := (invoke env w).2 in
  let input := input_of env w in
  (∀ r, r ∈ written_customer_rows log →
        ∃ s, retained_from input s ∧ r = customer_columns (derive s)) ∧
  (∀ r, r ∈ written_account_rows log →
        ∃ s, retained_from input s ∧ r = account_columns (derive s)) ∧
  (∀ r, r ∈ written_fact_rows log →
        gt0 (FactLoanPayment.Loan_Amount r) = true ∧
        ∃ s, retained_from input s ∧ r = fact_columns (derive s)).
Proof.
  simpl. split; [| split].
  - apply written_customer_row.
  - apply written_account_row.
  - intros r (s & Hs & ->)%written_fact_row. split; [| by exists s].
    by destruct Hs as (x & _ & _ & ?).
Qed.

(** C5. In what a run writes, no two customer rows share a customer id and
    no two account rows share an account number, whatever the input. *)
Theorem dimension_keys_unique env (w : world) :
  NoDup (DimCustomer.Customer_ID <$> written_customer_rows (invoke env w).2) ∧
  NoDup (DimAccount.Account_Number <$> written_account_rows (invoke env w).2).
Proof.
  destruct (invoke_written env w) as [->|(typed & n & _ & Hrows)].
  { split; constructor. }
  injection Hrows as -> -> _. split; case_decide; try constructor.
  all: apply drop_duplicates_from_NoDup.
Qed.

(** The coercions come before every write. *)
Lemma non_numeric_aborts env (w : world) cfg raw x :
  load_module env = inr cfg →
  read_csv w (bronze_path cfg) = inr raw →
  x ∈ raw →
  non_numeric astype_float astype_int x →
  invoke env w = (inl TypeCoercionError, []).
Proof.
  intros Hcfg Hraw Hx Hbad.
  unfold Normalizer.invoke, run, Normalizer.lambda_handler. rewrite Hcfg.
  unfold bind at 1. unfold lift at 1. rewrite Hraw. unfold ret at 1.
  assert (mapM coerce_row raw = None) as Hm.
  { apply mapM_None, Exists_exists. exists x. split; [done |].
    unfold Normalizer.coerce_row.
    destruct Hbad as [H|[H|[H|[H|H]]]]; rewrite H; simpl;
      repeat (match goal with |- context [?f ?c ≫= _] =>
                destruct (f c); simpl end); done. }
  unfold bind, lift, Normalizer.coerce. by rewrite Hm.
Qed.

Lemma converting_row x :
  astype_float (Raw.Loan_Amount x) ≠ None →
  astype_float (Raw.Outstanding_Amount x) ≠ None →
  astype_float (Raw.EMI_Amount x) ≠ None →
  astype_int (Raw.Payment_Delay_Days x) ≠ None →
  astype_int (Raw.Customer_Score x) ≠ None →
  is_Some (coerce_row x).
Proof.
  unfold Normalizer.coerce_row. intros H1 H2 H3 H4 H5.
  destruct (astype_float (Raw.Loan_Amount x)); [| done].
  destruct (astype_float (Raw.Outstanding_Amount x)); [| done].
  destruct (astype_float (Raw.EMI_Amount x)); [| done].
  destruct (astype_int (Raw.Payment_Delay_Days x)); [| done].
  destruct (astype_int (Raw.Customer_Score x)); [| done].
  simpl. eauto.
Qed.

(** C7 (as amended). When the frame the handler reads has a row with a
    value for which its coercion raises, [astype(float)] in the three amount
    columns or [astype(int)] in the delay and score columns, the run raises
    the coercion error and has written nothing. These are the only rows
    that stop the coercion: when every value of the five columns converts,
    the missing values of the amount columns among them, the frame is
    coerced, every row of it, and the run goes on to the filter. *)
Theorem coercion_failure_aborts env (w : world) cfg raw :
  load_module env = inr cfg →
  read_csv w (bronze_path cfg) = inr raw →
  (∀ x, x ∈ raw →
        astype_float (Raw.Loan_Amount x) = None ∨
        astype_float (Raw.Outstanding_Amount x) = None ∨
        astype_float (Raw.EMI_Amount x) = None ∨
        astype_int (Raw.Payment_Delay_Days x) = None ∨
        astype_int (Raw.Customer_Score x) = None →
        invoke env w = (inl TypeCoercionError, [])) ∧
  ((∀ x, x ∈ raw →
         astype_float (Raw.Loan_Amount x) ≠ None ∧
         astype_float (Raw.Outstanding_Amount x) ≠ None ∧
         astype_float (Raw.EMI_Amount x) ≠ None ∧
         astype_int (Raw.Payment_Delay_Days x) ≠ None ∧
         astype_int (Raw.Customer_Score x) ≠ None) →
   ∃ typed, coerce raw = inr typed ∧ length typed = length raw).
Proof.
  intros Hcfg Hraw. split.
  - intros x Hx Hbad. by eapply non_numeric_aborts.
  - intros Hgood.
    assert (is_Some (mapM coerce_row raw)) as [typed Hm].
    { apply mapM_is_Some, Forall_forall. intros x Hx.
      destruct (Hgood x Hx) as (? & ? & ? & ? & ?).
      by apply converting_row. }
    exists typed. unfold Normalizer.coerce. rewrite Hm.
    split; [done |]. symmetry. by eapply length_mapM.
Qed.

End Spec.

(** *** The Normalizer on the four records of [Scenario.bronze] *)

Lemma early_fact_row_written :
  Scenario.early_fact_row ∈
    written_fact_rows (Scenario.normalizer_run Scenario.bronze).2.
Proof. apply (list_elem_of_lookup_2 _ 2%nat). by vm_compute. Qed.

(** C3, as the specification states it, fails: the run writes a fact row
    labelled Average whose delay is not within [0 < delay <= 10]. *)
Lemma average_outside_stated_range :
  ∃ r, r ∈ written_fact_rows (Scenario.normalizer_run Scenario.bronze).2 ∧
       FactLoanPayment.Payment_Behavior r = "Average" ∧
       ¬ (0 < FactLoanPayment.Payment_Delay_Days r ≤ 10).
Proof.
  exists Scenario.early_fact_row.
  split; [apply early_fact_row_written | split; [done | simpl; lia]].
Qed.

Lemma payment_behavior_thresholds_witness :
  Scenario.early_fact_row ∈
    written_fact_rows (Scenario.normalizer_run Scenario.bronze).2 ∧
  (FactLoanPayment.Payment_Behavior Scenario.early_fact_row = "Average" ↔
   FactLoanPayment.Payment_Delay_Days Scenario.early_fact_row ≠ 0 ∧
   FactLoanPayment.Payment_Delay_Days Scenario.early_fact_row ≤ 10).
Proof.
  split; [apply early_fact_row_written |].
  apply (payment_behavior_thresholds Scenario.astype_float
           Scenario.astype_int Scenario.gt0 Scenario.normalizer_env
           (Scenario.normalizer_world Scenario.bronze)
           Scenario.early_fact_row early_fact_row_written).
Defined.

Lemma negative_delay_is_average_witness :
  FactLoanPayment.Payment_Delay_Days Scenario.early_fact_row < 0 ∧
  FactLoanPayment.Payment_On_Time_Flag Scenario.early_fact_row = "No" ∧
  FactLoanPayment.Payment_Behavior Scenario.early_fact_row = "Average".
Proof.
  split; [simpl; lia |].
  apply (negative_delay_is_average Scenario.astype_float
           Scenario.astype_int Scenario.gt0 Scenario.normalizer_env
           (Scenario.normalizer_world Scenario.bronze)
           Scenario.early_fact_row early_fact_row_written).
  simpl. lia.
Defined.

Lemma filter_invariant_witness :
  Scenario.gt0
    (FactLoanPayment.Loan_Amount Scenario.early_fact_row) = true.
Proof.
  apply (filter_invariant Scenario.astype_float Scenario.astype_int
           Scenario.gt0 Scenario.normalizer_env
           (Scenario.normalizer_world Scenario.bronze)).
  apply early_fact_row_written.
Defined.

(** C7, as the specification states it, fails: the field [n/a] in the loan
    amount is no number, [read_csv] reads it as the missing value,
    [astype(float)] keeps it, and the run returns after its three writes. *)
Lemma missing_loan_amount_does_not_abort :
  Pandas.record_without_amount ∈ Pandas.bronze_without_amount ∧
  Raw.Loan_Amount Pandas.record_without_amount = Pandas.read_text "n/a" ∧
  (Pandas.run Pandas.bronze_without_amount).1 = inr success ∧
  length (Pandas.run Pandas.bronze_without_amount).2 = 3%nat.
Proof.
  split; [right; by left |]. split; [done |]. split; by vm_compute.
Qed.

Lemma coercion_failure_aborts_witness :
  Pandas.record_with_text ∈ Pandas.bronze_with_text ∧
  Raw.Loan_Amount Pandas.record_with_text = Pandas.Text "abc" ∧
  Pandas.run Pandas.bronze_with_text = (inl TypeCoercionError, []).
Proof.
  assert (Pandas.record_with_text ∈ Pandas.bronze_with_text) as Hin
    by (right; by left).
  split; [done |]. split; [done |].
  apply (proj1 (coercion_failure_aborts Pandas.astype_float
                  Pandas.astype_int Pandas.gt0 Scenario.normalizer_env
                  (Pandas.world Pandas.bronze_with_text)
                  Scenario.normalizer_cfg Pandas.bronze_with_text
                  ltac:(by vm_compute) eq_refl)
           Pandas.record_with_text Hin).
  by left.
Defined.

(** An empty delay is read as the missing value, which [astype(int)]
    refuses: the run raises and has written nothing. *)
Lemma missing_delay_aborts :
  Raw.Payment_Delay_Days Pandas.record_without_delay = Pandas.Missing ∧
  Pandas.run Pandas.bronze_without_delay = (inl TypeCoercionError, []).
Proof. split; by vm_compute. Qed.

Lemma dimension_keys_unique_witness :
  NoDup (DimCustomer.Customer_ID <$>
           written_customer_rows (Scenario.normalizer_run Scenario.bronze).2).
Proof.
  apply (dimension_keys_unique Scenario.astype_float Scenario.astype_int
           Scenario.gt0 Scenario.normalizer_env
           (Scenario.normalizer_world Scenario.bronze)).
Defined.

End NormalizerSpec.

(** ** Grouping *)

Section Groupby.
Import Aggregator.
Context {A : Type}.
Implicit Types (k : string) (r : A) (groups : list (string * list A)).

Lemma group_insert_rows k k' r groups :
  group_rows k' (group_insert k r groups) =
  if decide (k' = k) then group_rows k groups ++ [r] else group_rows k' groups.
Proof.
  induction groups as [|[k0 rs] groups IH]; simpl.
  - repeat case_decide; simplify_eq; done.
  - destruct (decide (k = k0)) as [->|Hne]; simpl.
    + repeat case_decide; simplify_eq; done.
    + rewrite IH. repeat case_decide; simplify_eq; done.
Qed.

Lemma group_insert_keys k r groups :
  (group_insert k r groups).*1 =
  if decide (k ∈ groups.*1) then groups.*1 else groups.*1 ++ [k].
Proof.
  induction groups as [|[k0 rs] groups IH]; csimpl.
  - done.
  - destruct (decide (k = k0)) as [->|Hne]; csimpl.
    + by rewrite decide_True by left.
    + rewrite IH. destruct (decide (k ∈ groups.*1)).
      * by rewrite decide_True by (by right).
      * rewrite decide_False; [done |].
        by intros [?|?]%elem_of_cons.
Qed.

Lemma group_rows_absent k groups : k ∉ groups.*1 → group_rows k groups = [].
Proof.
  induction groups as [|[k0 rs] groups IH]; csimpl; [done |].
  intros Hk. rewrite decide_False.
  - apply IH. intros ?. apply Hk. by right.
  - intros ->. apply Hk. by left.
Qed.

Lemma group_rows_elem k rs groups :
  NoDup groups.*1 → (k, rs) ∈ groups → group_rows k groups = rs.
Proof.
  induction groups as [|[k0 rs0] groups IH]; simpl.
  - by intros _ ?%elem_of_nil.
  - intros [Hk0 Hnd]%NoDup_cons [[= -> ->]|Hin]%elem_of_cons.
    + by rewrite decide_True.
    + rewrite decide_False; [by apply IH |].
      intros ->. apply Hk0. apply list_elem_of_fmap. by exists (k0, rs).
Qed.

Lemma group_rows_present k groups :
  k ∈ groups.*1 → (k, group_rows k groups) ∈ groups.
Proof.
  induction groups as [|[k0 rs0] groups IH]; simpl.
  - by intros ?%elem_of_nil.
  - destruct (decide (k = k0)) as [->|Hne]; [by left |].
    intros [?|?]%elem_of_cons; [done |]. right. by apply IH.
Qed.

Variable key : A → option string.

(** The split of a frame: the groups have distinct keys, the keys are those
    of the rows that have one, and the group of a key holds the rows of that
    key in the order of the frame. *)
Lemma split_groups_spec (df : list A) :
  let groups := split_groups key df in
  NoDup groups.*1 ∧
  (∀ k, k ∈ groups.*1 ↔ Some k ∈ key <$> df) ∧
  (∀ k, group_rows k groups = filter (λ r, key r = Some k) df).
Proof.
  unfold split_groups. induction df as [|r df IH] using rev_ind; simpl.
  { split; [constructor | split; [| done]].
    intros k. split; by intros ?%elem_of_nil. }
  destruct IH as (Hnd & Hkeys & Hrows).
  rewrite foldl_snoc, fmap_app. simpl.
  destruct (key r) as [kr|] eqn:Hr.
  - split; [| split].
    + rewrite group_insert_keys. case_decide; [done |].
      apply NoDup_app. split; [done |]. split; [| apply NoDup_singleton].
      intros k ? ->%list_elem_of_singleton. done.
    + intros k. rewrite group_insert_keys.
      rewrite (elem_of_app (key <$> df)), list_elem_of_singleton, <- Hkeys.
      case_decide; [| rewrite elem_of_app, list_elem_of_singleton].
      * split; [by left | intros [?|?]; [done | by simplify_eq]].
      * split; intros [?|?]; [by left | right; congruence | by left |
                              right; congruence].
    + intros k. rewrite group_insert_rows, filter_app, filter_cons, Hrows.
      repeat case_decide; simplify_eq; try done.
      by rewrite filter_nil, app_nil_r.
  - split; [done | split].
    + intros k.
      rewrite (elem_of_app (key <$> df)), list_elem_of_singleton, <- Hkeys.
      split; [by left | intros [?|?]; [done | congruence]].
    + intros k. rewrite filter_app, filter_cons, Hrows.
      rewrite decide_False by congruence. by rewrite filter_nil, app_nil_r.
Qed.

Lemma groupby_Permutation (df : list A) :
  groupby key df ≡ₚ split_groups key df.
Proof. apply merge_sort_Permutation. Qed.

(** The same for the ordered groups. *)
Lemma groupby_spec (df : list A) :
  let groups := groupby key df in
  NoDup groups.*1 ∧
  (∀ k, k ∈ groups.*1 ↔ Some k ∈ key <$> df) ∧
  (∀ k rs, (k, rs) ∈ groups →
           rs = filter (λ r, key r = Some k) df ∧ rs ≠ []).
Proof.
  destruct (split_groups_spec df) as (Hnd & Hkeys & Hrows). simpl.
  pose proof (groupby_Permutation df) as Hperm.
  split; [by rewrite Hperm | split].
  - intros k. by rewrite Hperm.
  - intros k rs Hin. rewrite Hperm in Hin.
    pose proof (group_rows_elem _ _ _ Hnd Hin) as Hg.
    rewrite Hrows in Hg. split; [done |].
    assert (k ∈ (split_groups key df).*1) as Hk.
    { apply list_elem_of_fmap. by exists (k, rs). }
    apply Hkeys in Hk. apply list_elem_of_fmap in Hk as (r & ? & ?).
    intros ->.
    assert (r ∈ filter (λ r, key r = Some k) df) as Hr
      by (by apply list_elem_of_filter).
    rewrite Hg in Hr. by apply elem_of_nil in Hr.
Qed.

(** The groups come ordered by key. *)
Lemma groupby_Sorted (df : list A) : Sorted key_le (groupby key df).
Proof.
  apply Sorted_merge_sort. intros g1 g2. apply String.le_total.
Qed.

End Groupby.

(** ** The Aggregator *)

Module AggregatorSpec.
Import Aggregator.

(** The left join keeps every fact row, and gives a fact row without a
    customer the missing customer. *)
Lemma merge_left_unmatched {L R K : Type} `{EqDecision K}
    (lkey : L → K) (rkey : R → K) (left : list L) (right : list R) l :
  l ∈ left → (∀ r, r ∈ right → rkey r ≠ lkey l) →
  (l, None) ∈ merge_left lkey rkey left right.
Proof.
  intros Hl Hnone. unfold merge_left. apply list_elem_of_bind.
  exists l. split; [| done].
  destruct (filter (λ r, rkey r = lkey l) right) as [|r rs] eqn:Hf;
    [by left |].
  assert (r ∈ filter (λ r, rkey r = lkey l) right) as Hr
    by (rewrite Hf; by left).
  apply list_elem_of_filter in Hr as [? ?]. by destruct (Hnone r).
Qed.

Lemma merge_left_fst {L R K : Type} `{EqDecision K}
    (lkey : L → K) (rkey : R → K) (left : list L) (right : list R) p :
  p ∈ merge_left lkey rkey left right →
  p.1 ∈ left ∧
  match p.2 with
  | Some r => r ∈ right ∧ rkey r = lkey p.1
  | None => ∀ r, r ∈ right → rkey r ≠ lkey p.1
  end.
Proof.
  unfold merge_left. intros (l & Hp & Hl)%list_elem_of_bind.
  destruct (filter (λ r, rkey r = lkey l) right) as [|r rs] eqn:Hf.
  - apply list_elem_of_singleton in Hp as ->. split; [done |]. simpl.
    intros r Hr Heq.
    assert (r ∈ filter (λ r, rkey r = lkey l) right) as Hin
      by (by apply list_elem_of_filter).
    rewrite Hf in Hin. by apply elem_of_nil in Hin.
  - apply list_elem_of_fmap in Hp as (r' & -> & Hr'). split; [done |]. simpl.
    rewrite <- Hf in Hr'. by apply list_elem_of_filter in Hr' as [? ?].
Qed.

(** With no two right rows of the same key, every left row is joined once:
    the left columns of the join are the left frame. *)
Lemma merge_left_unique_keys {L R K : Type} `{EqDecision K}
    (lkey : L → K) (rkey : R → K) (left : list L) (right : list R) :
  NoDup (rkey <$> right) → (merge_left lkey rkey left right).*1 = left.
Proof.
  intros Hnd. unfold merge_left.
  induction left as [|l left IH]; [done |].
  rewrite bind_cons, fmap_app, IH.
  destruct (filter (λ r, rkey r = lkey l) right) as [|r1 [|r2 rs]] eqn:Hf;
    [done | done |].
  exfalso.
  assert (NoDup (rkey <$> r1 :: r2 :: rs)) as Hnd'.
  { rewrite <- Hf. apply (sublist_NoDup _ (rkey <$> right)); [done |].
    apply fmap_sublist, sublist_filter. }
  assert (∀ r, r ∈ r1 :: r2 :: rs → rkey r = lkey l) as Hkey.
  { intros r. rewrite <- Hf. by intros [? _]%list_elem_of_filter. }
  rewrite !fmap_cons in Hnd'. apply NoDup_cons in Hnd' as [Hr1 _].
  apply Hr1. rewrite (Hkey r1) by (by left).
  rewrite <- (Hkey r2) by (right; by left). by left.
Qed.

Section Spec.
Context {float blob : Type}.
Variable sum : list float → float.
Variable mean : list Z → float.
Variable read_fact : blob → list (Fact.row float).
Variable read_customer : blob → list Customer.row.

Abbreviation region_summary := (region_summary sum mean).
Abbreviation lambda_handler :=
  (lambda_handler sum mean read_fact read_customer).
Abbreviation invoke := (invoke sum mean read_fact read_customer).
Abbreviation world := (world (float := float) (blob := blob)).

Lemma region_summary_regions (merged_df : list (Merged.row float)) :
  Summary.region <$> region_summary merged_df =
  (groupby Merged.region merged_df).*1.
Proof.
  unfold Aggregator.region_summary. rewrite <- list_fmap_compose.
  by apply list_fmap_ext.
Qed.

Lemma elem_of_region_summary (merged_df : list (Merged.row float)) s :
  s ∈ region_summary merged_df →
  s = aggregate sum mean
        (Summary.region s, rows_of_region (Some (Summary.region s)) merged_df).
Proof.
  unfold Aggregator.region_summary.
  intros ([k rs] & -> & Hg)%list_elem_of_fmap.
  destruct (groupby_spec Merged.region merged_df) as (_ & _ & Hrows).
  apply Hrows in Hg as [-> _]. done.
Qed.

(** A fact row without a customer has no region after the join. *)
Lemma unmatched_fact_row (fact_df : list (Fact.row float)) customer_df f :
  f ∈ fact_df →
  (∀ c, c ∈ customer_df → Customer.customer_id c ≠ Fact.customer_id f) →
  ∃ m, m ∈ merge fact_df customer_df ∧ Merged.fact m = f ∧
       Merged.customer m = None ∧ Merged.region m = None.
Proof.
  intros Hf Hnone.
  exists {| Merged.fact := f; Merged.customer := None |}.
  split; [| done]. unfold merge. apply list_elem_of_fmap.
  exists (f, None). split; [done |]. by apply merge_left_unmatched.
Qed.

(** C1 (as amended). The summary has exactly one row for every region that
    is not missing among the rows of the left join. Its [total_loan_amount]
    is the sum of [loan_amount] over the rows of the join with that region,
    in their order. A fact row without a matching customer stays in the join
    with no customer and no region; it belongs to the rows of no region, so
    no row of the summary counts it. The rows of the join are the fact rows,
    each once, when no two customer rows share a customer id. *)
Theorem region_totals (fact_df : list (Fact.row float))
    (customer_df : list Customer.row) :
  let merged_df := merge fact_df customer_df in
  let summary := region_summary merged_df in
  NoDup (Summary.region <$> summary) ∧
  (∀ k, k ∈ Summary.region <$> summary ↔
        Some k ∈ Merged.region <$> merged_df) ∧
  (∀ s, s ∈ summary →
        Summary.total_loan_amount s =
        sum (Merged.loan_amount <$>
               rows_of_region (Some (Summary.region s)) merged_df)) ∧
  (∀ f, f ∈ fact_df →
        (∀ c, c ∈ customer_df →
              Customer.customer_id c ≠ Fact.customer_id f) →
        ∃ m, m ∈ merged_df ∧ Merged.fact m = f ∧ Merged.region m = None ∧
             ∀ s, s ∈ summary →
                  m ∉ rows_of_region (Some (Summary.region s)) merged_df) ∧
  (NoDup (Customer.customer_id <$> customer_df) →
   Merged.fact <$> merged_df = fact_df).
Proof.
  intros merged_df summary. subst summary.
  destruct (groupby_spec (@Merged.region float) merged_df)
    as (Hnd & Hkeys & _).
  repeat split.
  - by rewrite region_summary_regions.
  - rewrite region_summary_regions. apply Hkeys.
  - rewrite region_summary_regions. apply Hkeys.
  - intros s Hs. by rewrite (elem_of_region_summary _ _ Hs) at 1.
  - intros f Hf Hnone.
    destruct (unmatched_fact_row fact_df customer_df f Hf Hnone)
      as (m & ? & ? & _ & Hregion).
    exists m. repeat split; try done.
    intros s _ [Hk _]%list_elem_of_filter. congruence.
  - intros Hunique. subst merged_df. unfold merge.
    rewrite <- list_fmap_compose.
    by apply (merge_left_unique_keys Fact.customer_id) with (left := fact_df)
      in Hunique.
Qed.

(** C2 (as amended). The summary has as many rows as there are distinct
    regions that are not missing among the rows of the left join. *)
Theorem region_count (fact_df : list (Fact.row float))
    (customer_df : list Customer.row) :
  let merged_df := merge fact_df customer_df in
  length (region_summary merged_df) =
  length (remove_dups (omap Merged.region merged_df)).
Proof.
  intros merged_df.
  destruct (groupby_spec (@Merged.region float) merged_df)
    as (Hnd & Hkeys & _).
  rewrite <- (length_fmap Summary.region), region_summary_regions.
  apply Permutation_length, NoDup_Permutation;
    [done | apply NoDup_remove_dups |].
  intros k. rewrite Hkeys, elem_of_remove_dups, list_elem_of_fmap,
    list_elem_of_omap.
  split; intros (m & ? & ?); by exists m.
Qed.

(** What the reader returns for a bucket: the frames of the parquet keys of
    the listing, concatenated; the error when there is no such key. *)
Lemma read_parquet_folder_keys {A : Type} (to_pandas : blob → list A)
    (w : world) b folder_prefix :
  read_parquet_folder_from_s3 to_pandas w (Some b) folder_prefix =
  match parquet_keys (list_objects_v2 w b folder_prefix) with
  | [] => inl NotFoundError
  | keys => inr (concat ((λ key, to_pandas (get_object w b key)) <$> keys))
  end.
Proof.
  unfold read_parquet_folder_from_s3, parquet_keys. cbv zeta.
  assert (∀ pages : list page,
            (p ← pages; obj ← default [] (Contents p);
             if endswith (Key obj) ".parquet"
             then [to_pandas (get_object w b (Key obj))] else []) =
            (λ key, to_pandas (get_object w b key)) <$>
              (p ← pages; obj ← default [] (Contents p);
               if endswith (Key obj) ".parquet" then [Key obj] else []))
    as ->.
  { intros pages. induction pages as [|p pages IH]; csimpl; [done |].
    rewrite fmap_app, IH. f_equal.
    induction (default [] (Contents p)) as [|obj objs IHo]; csimpl; [done |].
    rewrite fmap_app, IHo. f_equal. by destruct (endswith _ _). }
  by destruct (mbind _ (list_objects_v2 w b folder_prefix)).
Qed.

(** C6. When the listing of the fact prefix or of the customer prefix of
    the bucket holds no parquet key, the run raises [NotFoundError] and has
    performed no effect: no gold artifact is written and nothing is loaded
    into the database. *)
Theorem empty_prefix_fails env (w : world) b :
  environ_get env "BUCKET_NAME" = Some b →
  parquet_keys (list_objects_v2 w b
     (SILVER_PREFIX (config_of env) +:+ "fact_loan_payment/")) = [] ∨
  parquet_keys (list_objects_v2 w b
     (SILVER_PREFIX (config_of env) +:+ "dim_customer/")) = [] →
  invoke env w = (inl NotFoundError, []).
Proof.
  intros Hb Hempty.
  unfold Aggregator.invoke, load_module, run, Aggregator.lambda_handler.
  unfold bind at 1. unfold lift at 1.
  replace (BUCKET_NAME (config_of env)) with (Some b) by done.
  rewrite !read_parquet_folder_keys.
  destruct (parquet_keys (list_objects_v2 w b
              (SILVER_PREFIX (config_of env) +:+ "fact_loan_payment/")))
    as [|key keys]; [done |].
  destruct Hempty as [?|Hc]; [done |].
  unfold ret at 1. unfold bind at 1. unfold lift at 1. by rewrite Hc.
Qed.

End Spec.

(** *** The Aggregator on the tables of [Scenario] *)

Lemma north_row_in_summary :
  Scenario.north_row ∈
    region_summary Scenario.sum Scenario.mean
      (merge Scenario.facts Scenario.customers).
Proof. apply (list_elem_of_lookup_2 _ 0%nat). by vm_compute. Qed.

(** Two facts of North with loan amounts 100 and 200: one row, total 300. *)
Lemma region_totals_witness :
  Summary.total_loan_amount Scenario.north_row =
  Scenario.sum
    (Merged.loan_amount <$>
       rows_of_region (Some "North")
         (merge Scenario.facts Scenario.customers)).
Proof.
  apply (region_totals Scenario.sum Scenario.mean Scenario.facts
           Scenario.customers).
  apply north_row_in_summary.
Defined.

(** C1, as the specification states it, fails: the join of a fact without a
    customer has a row with no region, and the summary has no row at all,
    so nothing counts that fact. *)
Lemma unmatched_fact_in_no_bucket :
  (∃ m, m ∈ merge Scenario.unmatched_facts [] ∧ Merged.region m = None ∧
        Merged.loan_amount m = (40 # 1)%Q) ∧
  region_summary Scenario.sum Scenario.mean
    (merge Scenario.unmatched_facts []) = [].
Proof.
  split; [| by vm_compute].
  exists {| Merged.fact := Scenario.fact "C9" (40 # 1) 3;
            Merged.customer := None |}.
  split; [by left | done].
Qed.

Lemma region_count_witness :
  length (region_summary Scenario.sum Scenario.mean
            (merge Scenario.facts Scenario.customers)) = 1%nat.
Proof.
  rewrite (region_count Scenario.sum Scenario.mean Scenario.facts
             Scenario.customers).
  by vm_compute.
Defined.

(** C2, as the specification states it, fails: with the missing region
    counted, the join of a fact without a customer has one distinct region,
    and the summary has no row. *)
Lemma missing_region_is_not_counted :
  length (remove_dups
            (Merged.region <$> merge Scenario.unmatched_facts [])) = 1%nat ∧
  length (region_summary Scenario.sum Scenario.mean
            (merge Scenario.unmatched_facts [])) = 0%nat.
Proof. split; by vm_compute. Qed.

Lemma empty_prefix_fails_witness :
  Scenario.aggregator_run Scenario.aggregator_env
    Scenario.silver_store_without_customers = (inl NotFoundError, []).
Proof.
  apply (empty_prefix_fails Scenario.sum Scenario.mean Scenario.read_fact
           Scenario.read_customer Scenario.aggregator_env
           (Scenario.aggregator_world Scenario.silver_store_without_customers)
           "loans").
  - by vm_compute.
  - right. by vm_compute.
Defined.

End AggregatorSpec.

(** ** Both components *)

Module PipelineSpec.

Lemma bind_returns {E A B} (m : M E A) (k : A → M E B) log b :
  (bind m k log).1 = inr b → ∃ a log', (k a log').1 = inr b.
Proof.
  unfold bind. destruct (m log) as [[e|a] log']; simpl; [done |]. eauto.
Qed.

Ltac returns H :=
  repeat (apply bind_returns in H as (? & ? & H));
  simpl in H; injection H as <-.

Lemma normalizer_load_module_missing env key :
  key ∈ Normalizer.required → env !! key = None →
  ∃ k, k ∈ Normalizer.required ∧ env !! k = None ∧
       Normalizer.load_module env = inl (MissingConfiguration k).
Proof.
  unfold Normalizer.required, Normalizer.load_module, environ_getitem.
  intros Hkey Hnone.
  destruct (env !! "BUCKET_NAME") eqn:Hb; simpl;
    [| exists "BUCKET_NAME"; repeat split; auto; by left].
  destruct (env !! "BRONZE_PREFIX") eqn:Hz; simpl;
    [| exists "BRONZE_PREFIX"; repeat split; auto; right; by left].
  destruct (env !! "SILVER_PREFIX") eqn:Hs; simpl;
    [| exists "SILVER_PREFIX"; repeat split; auto; do 2 right; by left].
  elem_cases Hkey; congruence.
Qed.

Section Spec.
Context {cell float blob : Type}.
Variable astype_float : cell → option float.
Variable astype_int : cell → option Z.
Variable gt0 : float → bool.
Variable sum : list float → float.
Variable mean : list Z → float.
Variable read_fact : blob → list (Aggregator.Fact.row float).
Variable read_customer : blob → list Aggregator.Customer.row.

(** C8 (as amended). The Normalizer fails fast: when the bucket name, the
    bronze prefix or the silver prefix is absent from the environment,
    loading the module raises [MissingConfiguration] for an absent setting,
    and the handler does not start, whatever the collaborators are. The
    catalog database has a default. The Aggregator does not: it reads its
    settings with [os.environ.get], so an absent prefix takes its default
    and an absent bucket name, secret name or database host is [None], and
    nothing is raised where they are read. An absent secret name surfaces
    only where the handler asks for the secret: with the bucket set and the
    silver tables read, the gold artifact is written first. *)
Theorem configuration_at_startup (env : environ) :
  (∀ key, key ∈ Normalizer.required → env !! key = None →
          ∃ k, k ∈ Normalizer.required ∧ env !! k = None ∧
               ∀ w, Normalizer.invoke astype_float astype_int gt0 env w =
                    (inl (MissingConfiguration k), [])) ∧
  (∀ cfg, Normalizer.load_module env = inr cfg →
          Normalizer.ATHENA_DATABASE cfg =
            default "loan_analytics" (env !! "ATHENA_DATABASE")) ∧
  (Aggregator.BUCKET_NAME (Aggregator.config_of env) = env !! "BUCKET_NAME" ∧
   Aggregator.SILVER_PREFIX (Aggregator.config_of env) =
     default "Silver/" (env !! "SILVER_PREFIX") ∧
   Aggregator.GOLD_PREFIX (Aggregator.config_of env) =
     default "Gold/" (env !! "GOLD_PREFIX") ∧
   Aggregator.RDS_SECRET_NAME (Aggregator.config_of env) =
     env !! "DB_SECRET_NAME" ∧
   Aggregator.RDS_Host (Aggregator.config_of env) = env !! "DB_HOST") ∧
  (∀ (w : Aggregator.world) b fact_df customer_df,
     env !! "BUCKET_NAME" = Some b →
     env !! "DB_SECRET_NAME" = None →
     Aggregator.read_parquet_folder_from_s3 read_fact w (Some b)
       (Aggregator.SILVER_PREFIX (Aggregator.config_of env) +:+
        "fact_loan_payment/") = inr fact_df →
     Aggregator.read_parquet_folder_from_s3 read_customer w (Some b)
       (Aggregator.SILVER_PREFIX (Aggregator.config_of env) +:+
        "dim_customer/") = inr customer_df →
     Aggregator.put_object_failure w b
       (Aggregator.GOLD_PREFIX (Aggregator.config_of env) +:+
        "region_summary/data.parquet") = None →
     run (Aggregator.lambda_handler sum mean read_fact read_customer
            (Aggregator.config_of env) w) =
     (inl ParamValidationError,
      [Aggregator.PutObject b
         (Aggregator.GOLD_PREFIX (Aggregator.config_of env) +:+
          "region_summary/data.parquet")
         (Aggregator.region_summary sum mean
            (Aggregator.merge fact_df customer_df))])).
Proof.
  split; [| split; [| split]].
  - intros key Hkey Hnone.
    destruct (normalizer_load_module_missing env key Hkey Hnone)
      as (k & ? & ? & Hload).
    exists k. repeat split; try done.
    intros w. unfold Normalizer.invoke. by rewrite Hload.
  - unfold Normalizer.load_module, environ_getitem.
    intros cfg Hload.
    destruct (env !! "BUCKET_NAME"); simpl in Hload; [| done].
    destruct (env !! "BRONZE_PREFIX"); simpl in Hload; [| done].
    destruct (env !! "SILVER_PREFIX"); simpl in Hload; [| done].
    by injection Hload as <-.
  - done.
  - intros w b fact_df customer_df Hb Hsecret Hfact Hcust Hput.
    unfold run, Aggregator.lambda_handler, Aggregator.write_parquet_to_s3,
      Aggregator.load_df_to_rds_copy, Aggregator.get_rds_credentials,
      bind, lift, emit, raise, ret.
    replace (Aggregator.BUCKET_NAME (Aggregator.config_of env))
      with (Some b) by done.
    replace (Aggregator.RDS_SECRET_NAME (Aggregator.config_of env))
      with (@None string) by done.
    rewrite Hfact. cbv beta iota. rewrite Hcust. cbv beta iota.
    by rewrite Hput.
Qed.

(** C10. A run of either component that returns a result returns the
    status Success; a failure is never a returned value: a run either
    returns such a result or raises. *)
Theorem returned_status_is_success (env : environ) :
  (∀ w r, (Normalizer.invoke astype_float astype_int gt0 env w).1 = inr r →
          Normalizer.status r = "Success") ∧
  (∀ w r, (Aggregator.invoke sum mean read_fact read_customer env w).1 =
            inr r →
          Aggregator.status r = "Success").
Proof.
  split; intros w r H.
  - unfold Normalizer.invoke in H.
    destruct (Normalizer.load_module env); [done |].
    unfold run, Normalizer.lambda_handler in H. by returns H.
  - unfold Aggregator.invoke, Aggregator.load_module, run,
      Aggregator.lambda_handler in H.
    by returns H.
Qed.

End Spec.

(** *** On the scenarios *)

(** C8, as the specification states it, fails: in an environment without
    the secret name and the database host the Aggregator loads, reads the
    silver tables and writes the gold artifact before a request raises. *)
Lemma aggregator_starts_without_database_settings :
  Scenario.aggregator_env_without_db !! "DB_SECRET_NAME" = None ∧
  Scenario.aggregator_env_without_db !! "DB_HOST" = None ∧
  Scenario.aggregator_run Scenario.aggregator_env_without_db
    Scenario.silver_store =
  (inl ParamValidationError,
   [Aggregator.PutObject "loans" "Gold/region_summary/data.parquet"
      [Scenario.north_row]]).
Proof. repeat split; by vm_compute. Qed.

Lemma configuration_at_startup_witness :
  ∃ k, k ∈ Normalizer.required ∧
       (∅ : environ) !! k = None ∧
       ∀ w, Normalizer.invoke Scenario.astype_float Scenario.astype_int
              Scenario.gt0 ∅ w = (inl (MissingConfiguration k), []).
Proof.
  apply (proj1 (configuration_at_startup Scenario.astype_float
                  Scenario.astype_int Scenario.gt0 Scenario.sum
                  Scenario.mean Scenario.read_fact Scenario.read_customer
                  ∅) "SILVER_PREFIX").
  - do 2 right. by left.
  - done.
Defined.

Lemma returned_status_is_success_witness :
  ∃ r, (Scenario.normalizer_run Scenario.bronze).1 = inr r ∧
       Normalizer.status r = "Success".
Proof.
  exists {| Normalizer.status := "Success";
            Normalizer.message := "Bronze → Silver ETL completed." |}.
  assert ((Scenario.normalizer_run Scenario.bronze).1 =
          inr {| Normalizer.status := "Success";
                 Normalizer.message := "Bronze → Silver ETL completed." |})
    as Hrun by (by vm_compute).
  split; [done |].
  apply (proj1 (returned_status_is_success Scenario.astype_float
                  Scenario.astype_int Scenario.gt0 Scenario.sum
                  Scenario.mean Scenario.read_fact Scenario.read_customer
                  Scenario.normalizer_env)
           (Scenario.normalizer_world Scenario.bronze) _ Hrun).
Defined.

End PipelineSpec.

(** * Further properties of the Normalizer *)

Module NormalizerMore.
Import Normalizer.

Section DropDuplicates.
Context {A K : Type} `{EqDecision K} (key : A → K).

Lemma drop_duplicates_from_first seen df r :
  r ∈ drop_duplicates_from key seen df →
  ∃ pre post, df = pre ++ r :: post ∧ ∀ x, x ∈ pre → key x ≠ key r.
Proof.
  revert seen. induction df as [|x df IH]; intros seen; simpl.
  - by intros ?%elem_of_nil.
  - destruct (decide (key x ∈ seen)) as [Hin|Hout].
    + intros Hr.
      pose proof (drop_duplicates_from_sublist key _ _ _ Hr) as [_ Hseen].
      destruct (IH _ Hr) as (pre & post & -> & Hpre).
      exists (x :: pre), post. split; [done |].
      intros y [->|?]%elem_of_cons; [congruence | by apply Hpre].
    + intros [->|Hr]%elem_of_cons.
      * exists [], df. split; [done |]. by intros y ?%elem_of_nil.
      * pose proof (drop_duplicates_from_sublist key _ _ _ Hr) as [_ Hseen].
        destruct (IH _ Hr) as (pre & post & -> & Hpre).
        exists (x :: pre), post. split; [done |].
        intros y [->|?]%elem_of_cons; [| by apply Hpre].
        intros Heq. apply Hseen. rewrite Heq. by left.
Qed.

Lemma drop_duplicates_from_is_sublist seen df :
  drop_duplicates_from key seen df `sublist_of` df.
Proof.
  revert seen. induction df as [|x df IH]; intros seen; simpl; [done |].
  destruct (decide (key x ∈ seen)).
  - by apply sublist_cons.
  - by apply sublist_skip.
Qed.

Lemma drop_duplicates_from_unique seen df :
  NoDup (key <$> df) → (∀ x, x ∈ df → key x ∉ seen) →
  drop_duplicates_from key seen df = df.
Proof.
  revert seen. induction df as [|x df IH]; intros seen; csimpl; [done |].
  intros [Hx Hnd]%NoDup_cons Hseen.
  rewrite decide_False by (apply Hseen; by left).
  f_equal. apply IH; [done |].
  intros y Hy [Heq|?]%elem_of_cons.
  - apply Hx. rewrite <- Heq. apply list_elem_of_fmap. by exists y.
  - apply (Hseen y); [by right | done].
Qed.

(** X1. [drop_duplicates] keeps the rows in their order, and keeps for
    every key the first row that carries it: a kept row has no row before
    it with its key, and every row of the frame has its key on a kept
    row. *)
Theorem drop_duplicates_keeps_first (df : list A) :
  drop_duplicates key df `sublist_of` df ∧
  (∀ r, r ∈ drop_duplicates key df →
        ∃ pre post, df = pre ++ r :: post ∧ ∀ x, x ∈ pre → key x ≠ key r) ∧
  (∀ x, x ∈ df → ∃ r, r ∈ drop_duplicates key df ∧ key r = key x).
Proof.
  unfold drop_duplicates. split; [| split].
  - apply drop_duplicates_from_is_sublist.
  - intros r. apply drop_duplicates_from_first.
  - intros x Hx. apply drop_duplicates_from_complete; [done |].
    apply not_elem_of_nil.
Qed.

(** X2. [drop_duplicates] leaves a frame without repeated keys as it is; so
    deduplicating twice is deduplicating once. *)
Theorem drop_duplicates_idempotent (df : list A) :
  (NoDup (key <$> df) → drop_duplicates key df = df) ∧
  drop_duplicates key (drop_duplicates key df) = drop_duplicates key df.
Proof.
  assert (∀ l, NoDup (key <$> l) → drop_duplicates key l = l) as Hid.
  { intros l Hnd. apply drop_duplicates_from_unique; [done |].
    intros x _. apply not_elem_of_nil. }
  split; [apply Hid |].
  apply Hid, drop_duplicates_from_NoDup.
Qed.

End DropDuplicates.

Section Run.
Context {cell float : Type}.
Variable astype_float : cell → option float.
Variable astype_int : cell → option Z.
Variable gt0 : float → bool.

Abbreviation coerce_row := (coerce_row astype_float astype_int).
Abbreviation non_numeric := (non_numeric astype_float astype_int).
Abbreviation retained_from := (retained_from astype_float astype_int gt0).
Abbreviation silver := (silver gt0).
Abbreviation invoke := (invoke astype_float astype_int gt0).
Abbreviation lambda_handler := (lambda_handler astype_float astype_int gt0).

(** X3. The on-time flag of a written fact row is Yes exactly when its
    delay is 0 and No otherwise; so it is Yes exactly on the rows whose
    behavior is Good. *)
Theorem on_time_flag_matches_behavior env (w : world) r :
  r ∈ written_fact_rows (invoke env w).2 →
  (FactLoanPayment.Payment_On_Time_Flag r = "Yes" ↔
   FactLoanPayment.Payment_Delay_Days r = 0) ∧
  (FactLoanPayment.Payment_On_Time_Flag r = "No" ↔
   FactLoanPayment.Payment_Delay_Days r ≠ 0) ∧
  (FactLoanPayment.Payment_On_Time_Flag r = "Yes" ↔
   FactLoanPayment.Payment_Behavior r = "Good").
Proof.
  intros (s & _ & ->)%NormalizerSpec.written_fact_row. simpl.
  unfold payment_on_time_flag, payment_behavior.
  destruct (Z.eqb_spec (Raw.Payment_Delay_Days s) 0) as [Hz|Hnz].
  - repeat split; intros; try done.
  - destruct (Raw.Payment_Delay_Days s <=? 10); repeat split; intros; done.
Qed.

(** X4. The three tables are written in the order customer, account, fact,
    and a failure rolls nothing back: when the write at position [i] is the
    first that fails, the run raises its error and the writes before it
    have been performed, exactly those. *)
Theorem writes_until_first_failure cfg (w : world) raw typed i c e :
  read_csv w (bronze_path cfg) = inr raw →
  mapM coerce_row raw = Some typed →
  planned_writes cfg (silver typed) !! i = Some c →
  to_parquet_failure w (path c) = Some e →
  (∀ j c', (j < i)%nat → planned_writes cfg (silver typed) !! j = Some c' →
           to_parquet_failure w (path c') = None) →
  run (lambda_handler cfg w) =
    (inl e, take i (planned_writes cfg (silver typed))).
Proof.
  intros Hraw Hm Hi He Hbefore.
  unfold run, Normalizer.lambda_handler, bind, lift, Normalizer.coerce.
  rewrite Hraw. simpl. rewrite Hm. simpl. fold (silver typed).
  unfold to_parquet, emit, raise. simpl.
  destruct i as [|[|[|i]]]; simpl in Hi; simplify_eq; simpl in He.
  - by rewrite He.
  - pose proof (Hbefore 0%nat _ ltac:(lia) eq_refl) as H0. simpl in H0.
    rewrite H0. simpl. by rewrite He.
  - pose proof (Hbefore 0%nat _ ltac:(lia) eq_refl) as H0. simpl in H0.
    pose proof (Hbefore 1%nat _ ltac:(lia) eq_refl) as H1. simpl in H1.
    rewrite H0. simpl. rewrite H1. simpl. by rewrite He.
Qed.

Lemma numeric_row_converts x : ¬ non_numeric x → is_Some (coerce_row x).
Proof.
  unfold Normalizer.non_numeric, Normalizer.coerce_row. intros Hnum.
  destruct (astype_float (Raw.Loan_Amount x)); [| tauto].
  destruct (astype_float (Raw.Outstanding_Amount x)); [| tauto].
  destruct (astype_float (Raw.EMI_Amount x)); [| tauto].
  destruct (astype_int (Raw.Payment_Delay_Days x)); [| tauto].
  destruct (astype_int (Raw.Customer_Score x)); [| tauto].
  simpl. eauto.
Qed.

(** X5. The converse of the coercion failure: when the configuration is
    complete, the input is read, no row has a value that is not numeric and
    no write fails, the run returns Success after the three writes, in
    order. *)
Theorem numeric_input_succeeds env (w : world) cfg raw :
  load_module env = inr cfg →
  read_csv w (bronze_path cfg) = inr raw →
  (∀ x, x ∈ raw → ¬ non_numeric x) →
  (∀ p, to_parquet_failure w p = None) →
  ∃ typed, mapM coerce_row raw = Some typed ∧
           invoke env w = (inr success, planned_writes cfg (silver typed)).
Proof.
  intros Hcfg Hraw Hnum Hok.
  assert (is_Some (mapM coerce_row raw)) as [typed Hm].
  { apply mapM_is_Some, Forall_forall. intros x Hx.
    by apply numeric_row_converts, Hnum. }
  exists typed. split; [done |].
  unfold Normalizer.invoke, run, Normalizer.lambda_handler, bind, lift,
    Normalizer.coerce, to_parquet.
  rewrite Hcfg, Hraw. simpl. rewrite Hm. simpl. by rewrite !Hok.
Qed.

(** A run that returns wrote the three tables. *)
Lemma invoke_returns env (w : world) r :
  (invoke env w).1 = inr r →
  ∃ cfg typed,
    load_module env = inr cfg ∧
    mapM coerce_row (input_of env w) = Some typed ∧
    (invoke env w).2 = planned_writes cfg (silver typed).
Proof.
  unfold Normalizer.invoke, input_of.
  destruct (load_module env) as [e|cfg]; [done |].
  unfold run, Normalizer.lambda_handler, bind, lift, Normalizer.coerce,
    to_parquet, emit, raise, ret.
  destruct (read_csv w (bronze_path cfg)) as [e|raw]; simpl; [done |].
  destruct (mapM coerce_row raw) as [typed|] eqn:Hm; simpl; [| done].
  fold (silver typed).
  repeat match goal with
         | |- context [to_parquet_failure w ?p] =>
             destruct (to_parquet_failure w p); simpl; [done |]
         end.
  intros _. by exists cfg, typed.
Qed.

(** X6. A run that returns has lost nothing it retained: every input row
    with a loan amount greater than 0 has its fact row written, its customer
    id on a written customer row and its account number on a written
    account row; and as many fact rows are written as rows were retained,
    repeated rows included. *)
Theorem returned_run_is_complete env (w : world) r :
  (invoke env w).1 = inr r →
  let log := (invoke env w).2 in
  (∀ s, retained_from (input_of env w) s →
        fact_columns (derive s) ∈ written_fact_rows log ∧
        (∃ c, c ∈ written_customer_rows log ∧
              DimCustomer.Customer_ID c = Raw.Customer_ID s) ∧
        (∃ a, a ∈ written_account_rows log ∧
              DimAccount.Account_Number a = Raw.Account_Number s)) ∧
  ∃ typed, mapM coerce_row (input_of env w) = Some typed ∧
           length (written_fact_rows log) = length (retain gt0 typed).
Proof.
  intros (cfg & typed & _ & Hm & Hlog)%invoke_returns. simpl.
  rewrite Hlog. unfold written_fact_rows, written_customer_rows,
    written_account_rows, planned_writes. csimpl. rewrite !app_nil_r.
  split.
  - intros s Hs.
    assert (derive s ∈ silver typed) as Hd
      by (apply (NormalizerSpec.elem_of_silver _ _ _ _ _ _ Hm); by exists s).
    split; [| split].
    + apply (NormalizerSpec.elem_of_fact_loan_payment _ _ _ _ _ _ Hm).
      by exists s.
    + destruct (drop_duplicates_from_complete DimCustomer.Customer_ID []
                  (customer_columns <$> silver typed)
                  (customer_columns (derive s))) as (c & ? & ?).
      * apply list_elem_of_fmap. by exists (derive s).
      * apply not_elem_of_nil.
      * by exists c.
    + destruct (drop_duplicates_from_complete DimAccount.Account_Number []
                  (account_columns <$> silver typed)
                  (account_columns (derive s))) as (a & ? & ?).
      * apply list_elem_of_fmap. by exists (derive s).
      * apply not_elem_of_nil.
      * by exists a.
  - exists typed. split; [done |].
    unfold fact_loan_payment, Normalizer.silver. by rewrite !length_fmap.
Qed.

End Run.

(** *** On the records of [Scenario.bronze] *)

Lemma on_time_flag_matches_behavior_witness :
  FactLoanPayment.Payment_On_Time_Flag Scenario.early_fact_row = "No" ↔
  FactLoanPayment.Payment_Delay_Days Scenario.early_fact_row ≠ 0.
Proof.
  apply (on_time_flag_matches_behavior Scenario.astype_float
           Scenario.astype_int Scenario.gt0 Scenario.normalizer_env
           (Scenario.normalizer_world Scenario.bronze)
           Scenario.early_fact_row NormalizerSpec.early_fact_row_written).
Defined.

Lemma writes_until_first_failure_witness :
  run (lambda_handler Scenario.astype_float Scenario.astype_int Scenario.gt0
         Scenario.normalizer_cfg
         (Scenario.normalizer_world_failing Scenario.bronze)) =
  (inl StorageWriteError,
   take 1 (planned_writes Scenario.normalizer_cfg
             (silver Scenario.gt0 Scenario.bronze_typed))).
Proof.
  eapply (writes_until_first_failure Scenario.astype_float
            Scenario.astype_int Scenario.gt0 Scenario.normalizer_cfg
            (Scenario.normalizer_world_failing Scenario.bronze)
            Scenario.bronze Scenario.bronze_typed 1%nat).
  - done.
  - by vm_compute.
  - reflexivity.
  - by vm_compute.
  - intros [|j] c' Hj Hc'; [| lia]. simpl in Hc'. injection Hc' as <-.
    by vm_compute.
Defined.

Lemma numeric_input_succeeds_witness :
  ∃ typed,
    mapM (coerce_row Scenario.astype_float Scenario.astype_int)
      Scenario.bronze = Some typed ∧
    Scenario.normalizer_run Scenario.bronze =
      (inr success,
       planned_writes Scenario.normalizer_cfg (silver Scenario.gt0 typed)).
Proof.
  apply (numeric_input_succeeds Scenario.astype_float Scenario.astype_int
           Scenario.gt0 Scenario.normalizer_env
           (Scenario.normalizer_world Scenario.bronze)
           Scenario.normalizer_cfg Scenario.bronze).
  - by vm_compute.
  - done.
  - intros x Hx. unfold Scenario.bronze in Hx. elem_cases Hx;
      intros [H|[H|[H|[H|H]]]]; discriminate H.
  - done.
Defined.

Lemma returned_run_is_complete_witness :
  ∃ typed,
    mapM (coerce_row Scenario.astype_float Scenario.astype_int)
      (input_of Scenario.normalizer_env
         (Scenario.normalizer_world Scenario.bronze)) =
      Some typed ∧
    length (written_fact_rows (Scenario.normalizer_run Scenario.bronze).2) =
    length (retain Scenario.gt0 typed).
Proof.
  apply (returned_run_is_complete Scenario.astype_float Scenario.astype_int
           Scenario.gt0 Scenario.normalizer_env
           (Scenario.normalizer_world Scenario.bronze) success).
  by vm_compute.
Defined.

End NormalizerMore.

(** * Further properties of the Aggregator *)

Module AggregatorMore.
Import Aggregator.

(** ** [str.endswith] *)

Lemma substring_all (s : string) : String.substring 0 (String.length s) s = s.
Proof. induction s as [|c s IH]; simpl; [done |]. by rewrite IH. Qed.

Lemma substring_append_r (p s : string) :
  String.substring (String.length p) (String.length s) (p +:+ s) = s.
Proof. induction p as [|c p IH]; simpl; [apply substring_all | done]. Qed.

Lemma append_length (p s : string) :
  String.length (p +:+ s) = (String.length p + String.length s)%nat.
Proof. induction p as [|c p IH]; simpl; [done |]. by rewrite IH. Qed.

Lemma substring_split (s : string) (k : nat) :
  (k ≤ String.length s)%nat →
  s = String.substring 0 k s +:+ String.substring k (String.length s - k) s.
Proof.
  revert k. induction s as [|c s IH]; intros [|k] Hk; simpl in *;
    try done; try lia.
  - by rewrite substring_all.
  - change (String c s =
            String c (String.substring 0 k s +:+
                      String.substring k (String.length s - k) s)).
    f_equal. apply IH. lia.
Qed.

(** X7. [endswith s suffix] holds exactly when [s] is some string followed
    by [suffix]; so the reader takes a key for a fragment exactly when the
    key ends in [.parquet]. *)
Theorem endswith_spec (s suffix : string) :
  endswith s suffix = true ↔ ∃ p, s = p +:+ suffix.
Proof.
  unfold endswith. rewrite andb_true_iff, Nat.leb_le, String.eqb_eq. split.
  - intros [Hle Hsub].
    exists (String.substring 0 (String.length s - String.length suffix) s).
    pose proof (substring_split s
                  (String.length s - String.length suffix)) as Hsplit.
    replace (String.length s - (String.length s - String.length suffix))%nat
      with (String.length suffix) in Hsplit by lia.
    rewrite Hsub in Hsplit. apply Hsplit. lia.
  - intros [p ->]. rewrite append_length. split; [lia |].
    replace (String.length p + String.length suffix - String.length suffix)%nat
      with (String.length p) by lia.
    apply substring_append_r.
Qed.

Section Run.
Context {float blob : Type}.
Variable sum : list float → float.
Variable mean : list Z → float.
Variable read_fact : blob → list (Fact.row float).
Variable read_customer : blob → list Customer.row.

Abbreviation region_summary := (region_summary sum mean).
Abbreviation lambda_handler :=
  (lambda_handler sum mean read_fact read_customer).
Abbreviation world := (world (float := float) (blob := blob)).

Ltac unfold_handler :=
  unfold run, Aggregator.lambda_handler, write_parquet_to_s3,
    load_df_to_rds_copy, get_rds_credentials, creds_getitem, maybe_fail,
    bind, lift, emit, raise, ret.

Ltac step := cbv beta iota; cbn [app fst snd].

Lemma elem_of_parquet_keys (pages : list page) k :
  k ∈ parquet_keys pages ↔
  ∃ p objs obj, p ∈ pages ∧ Contents p = Some objs ∧ obj ∈ objs ∧
                Key obj = k ∧ endswith k ".parquet" = true.
Proof.
  unfold parquet_keys. rewrite list_elem_of_bind. split.
  - intros (p & (obj & Hk & Hobj)%list_elem_of_bind & Hp).
    destruct (Contents p) as [objs|] eqn:Hc; simpl in Hobj;
      [| by apply elem_of_nil in Hobj].
    destruct (endswith (Key obj) ".parquet") eqn:He;
      [| by apply elem_of_nil in Hk].
    apply list_elem_of_singleton in Hk as ->.
    by exists p, objs, obj.
  - intros (p & objs & obj & Hp & Hc & Hobj & <- & He).
    exists p. split; [| done]. apply list_elem_of_bind.
    exists obj. rewrite Hc, He. split; [by left | done].
Qed.

(** X8. Reading a prefix of a bucket raises [NotFoundError] exactly when no
    listed key ends in [.parquet]: a page without [Contents] and a key with
    another ending are passed over. What it returns, when it returns, is
    the rows of the fragments in the order of the listing; a fragment
    without rows counts as a fragment. *)
Theorem read_parquet_folder_result {A : Type} (to_pandas : blob → list A)
    (w : world) b folder_prefix :
  let pages := list_objects_v2 w b folder_prefix in
  let read := read_parquet_folder_from_s3 to_pandas w (Some b) folder_prefix in
  (read = inl NotFoundError ↔
   ∀ p objs obj, p ∈ pages → Contents p = Some objs → obj ∈ objs →
                 ¬ ∃ stem, Key obj = stem +:+ ".parquet") ∧
  (∀ df, read = inr df →
         df = concat ((λ key, to_pandas (get_object w b key)) <$>
                        parquet_keys pages)).
Proof.
  intros pages read. subst read.
  rewrite AggregatorSpec.read_parquet_folder_keys. fold pages.
  split.
  - split.
    + destruct (parquet_keys pages) as [|k ks] eqn:Hk; [| done].
      intros _ p objs obj Hp Hc Hobj Hend%endswith_spec.
      assert (Key obj ∈ parquet_keys pages) as Hin
        by (apply elem_of_parquet_keys; by exists p, objs, obj).
      rewrite Hk in Hin. by apply elem_of_nil in Hin.
    + intros Hnone. destruct (parquet_keys pages) as [|k ks] eqn:Hk; [done |].
      assert (k ∈ parquet_keys pages) as Hin by (rewrite Hk; by left).
      apply elem_of_parquet_keys in Hin
        as (p & objs & obj & Hp & Hc & Hobj & Hkey & Hend).
      destruct (Hnone p objs obj Hp Hc Hobj).
      rewrite Hkey. by apply endswith_spec.
  - intros df. destruct (parquet_keys pages); [done | congruence].
Qed.

(** X9. Whatever the collaborators do, the effects of a run that read both
    tables are a prefix of: the gold artifact, the table statement, its
    commit, the bulk copy, its commit; so the database is touched only
    after the artifact is written. A run that returns has performed all
    five, has loaded into the database the rows of the artifact, and
    returns their number as [record_count]. *)
Theorem effects_in_order cfg (w : world) b fact_df customer_df :
  BUCKET_NAME cfg = Some b →
  read_parquet_folder_from_s3 read_fact w (Some b)
    (SILVER_PREFIX cfg +:+ "fact_loan_payment/") = inr fact_df →
  read_parquet_folder_from_s3 read_customer w (Some b)
    (SILVER_PREFIX cfg +:+ "dim_customer/") = inr customer_df →
  let agg_df := region_summary (merge fact_df customer_df) in
  let out := run (lambda_handler cfg w) in
  out.2 `prefix_of` planned_effects b cfg agg_df ∧
  (∀ r, out.1 = inr r →
        out.2 = planned_effects b cfg agg_df ∧ r = success (length agg_df)).
Proof.
  intros Hb Hfact Hcust agg_df out. subst out. unfold_handler.
  rewrite Hb, Hfact. step. rewrite Hcust. step. fold agg_df.
  unfold planned_effects.
  destruct (put_object_failure w b _); step;
    [split; [by eexists | done] |].
  destruct (RDS_SECRET_NAME cfg) as [n|]; step;
    [| split; [by eexists | done]].
  destruct (get_secret_value w n) as [e|creds]; step;
    [split; [by eexists | done] |].
  destruct (creds !! "username") as [user|]; step;
    [| split; [by eexists | done]].
  destruct (creds !! "password") as [password|]; step;
    [| split; [by eexists | done]].
  destruct (connect_failure w (RDS_Host cfg) user password); step;
    [split; [by eexists | done] |].
  destruct (execute_failure w _); step;
    [split; [by eexists | done] |].
  destruct (copy_expert_failure w _ agg_df); step;
    [split; [by eexists | done] |].
  split; [by exists [] |]. by intros r [= <-].
Qed.

(** X10. A failed bulk copy rolls nothing back: when everything before it
    succeeds, the run raises the error of the copy, and the gold artifact
    and the committed table statement stay; no row is loaded. *)
Theorem copy_failure_keeps_artifact cfg (w : world) b n creds user password
    fact_df customer_df e :
  BUCKET_NAME cfg = Some b →
  read_parquet_folder_from_s3 read_fact w (Some b)
    (SILVER_PREFIX cfg +:+ "fact_loan_payment/") = inr fact_df →
  read_parquet_folder_from_s3 read_customer w (Some b)
    (SILVER_PREFIX cfg +:+ "dim_customer/") = inr customer_df →
  put_object_failure w b
    (GOLD_PREFIX cfg +:+ "region_summary/data.parquet") = None →
  RDS_SECRET_NAME cfg = Some n →
  get_secret_value w n = inr creds →
  creds !! "username" = Some user →
  creds !! "password" = Some password →
  connect_failure w (RDS_Host cfg) user password = None →
  execute_failure w (create_table_sql "customer") = None →
  copy_expert_failure w (copy_sql "customer")
    (region_summary (merge fact_df customer_df)) = Some e →
  run (lambda_handler cfg w) =
    (inl e,
     take 3 (planned_effects b cfg
               (region_summary (merge fact_df customer_df)))).
Proof.
  intros Hb Hfact Hcust Hput Hn Hsecret Huser Hpassword Hconnect Hexecute
    Hcopy.
  unfold_handler. rewrite Hb, Hfact. step. rewrite Hcust. step.
  rewrite Hput. step. rewrite Hn, Hsecret. step.
  rewrite Huser. step. rewrite Hpassword. step. rewrite Hconnect. step.
  rewrite Hexecute. step. rewrite Hcopy. by step.
Qed.

(** X11. When the bucket is configured, both tables are read and no
    collaborator fails, the run returns Success with the number of rows of
    the summary, after the five effects in order. *)
Theorem aggregation_succeeds cfg (w : world) b n creds user password
    fact_df customer_df :
  BUCKET_NAME cfg = Some b →
  read_parquet_folder_from_s3 read_fact w (Some b)
    (SILVER_PREFIX cfg +:+ "fact_loan_payment/") = inr fact_df →
  read_parquet_folder_from_s3 read_customer w (Some b)
    (SILVER_PREFIX cfg +:+ "dim_customer/") = inr customer_df →
  put_object_failure w b
    (GOLD_PREFIX cfg +:+ "region_summary/data.parquet") = None →
  RDS_SECRET_NAME cfg = Some n →
  get_secret_value w n = inr creds →
  creds !! "username" = Some user →
  creds !! "password" = Some password →
  connect_failure w (RDS_Host cfg) user password = None →
  execute_failure w (create_table_sql "customer") = None →
  copy_expert_failure w (copy_sql "customer")
    (region_summary (merge fact_df customer_df)) = None →
  run (lambda_handler cfg w) =
    (inr (success (length (region_summary (merge fact_df customer_df)))),
     planned_effects b cfg (region_summary (merge fact_df customer_df))).
Proof.
  intros Hb Hfact Hcust Hput Hn Hsecret Huser Hpassword Hconnect Hexecute
    Hcopy.
  unfold_handler. rewrite Hb, Hfact. step. rewrite Hcust. step.
  rewrite Hput. step. rewrite Hn, Hsecret. step.
  rewrite Huser. step. rewrite Hpassword. step. rewrite Hconnect. step.
  rewrite Hexecute. step. rewrite Hcopy. by step.
Qed.

(** ** The join *)

Lemma merge_left_covers {L R K : Type} `{EqDecision K}
    (lkey : L → K) (rkey : R → K) (left : list L) (right : list R) l :
  l ∈ left → ∃ o, (l, o) ∈ merge_left lkey rkey left right.
Proof.
  intros Hl. unfold merge_left.
  destruct (filter (λ r, rkey r = lkey l) right) as [|r rs] eqn:Hf.
  - exists None. apply list_elem_of_bind. exists l. rewrite Hf.
    split; [by left | done].
  - exists (Some r). apply list_elem_of_bind. exists l. rewrite Hf.
    split; [by left | done].
Qed.

Lemma merge_left_length {L R K : Type} `{EqDecision K}
    (lkey : L → K) (rkey : R → K) (left : list L) (right : list R) :
  length (merge_left lkey rkey left right) =
  sum_list_with
    (λ l, Nat.max 1 (length (filter (λ r, rkey r = lkey l) right))) left.
Proof.
  unfold merge_left. induction left as [|l left IH]; [done |].
  rewrite bind_cons, length_app, IH. csimpl. f_equal.
  destruct (filter (λ r, rkey r = lkey l) right) as [|r rs]; [done |].
  simpl. rewrite length_fmap. lia.
Qed.

Lemma merge_left_columns {L R K : Type} `{EqDecision K}
    (lkey : L → K) (rkey : R → K) (left : list L) (right : list R) :
  (merge_left lkey rkey left right).*1 =
    (l ← left;
     replicate (Nat.max 1 (length (filter (λ r, rkey r = lkey l) right))) l) ∧
  (merge_left lkey rkey left right).*2 =
    (l ← left;
     match filter (λ r, rkey r = lkey l) right with
     | [] => [None]
     | matches => Some <$> matches
     end).
Proof.
  unfold merge_left. induction left as [|l left [IH1 IH2]]; [done |].
  rewrite !bind_cons, !fmap_app, IH1, IH2.
  destruct (filter (λ r, rkey r = lkey l) right) as [|r rs]; [done |].
  split; f_equal.
  - rewrite <- list_fmap_compose.
    change (Nat.max 1 (length (r :: rs))) with (length (r :: rs)).
    generalize (r :: rs). intros matches.
    induction matches as [|m matches IH]; csimpl; [done |]. by rewrite IH.
  - by rewrite <- list_fmap_compose.
Qed.

(** X12. The left join never drops a fact row and never invents one: the
    fact rows of the join are the rows of the fact table. A joined row
    carries a customer row of the same customer id, or no customer when no
    customer row has that id. A fact row is joined once per customer row
    with its id, so repeated customer rows repeat it: down the join, the
    fact column is every fact row in turn, repeated as many times as there
    are customer rows with its id (once when there is none), and the
    customer column is, beside each fact row, the customer rows with its id
    in their order (the missing customer when there is none). *)
Theorem left_join_rows (fact_df : list (Fact.row float))
    (customer_df : list Customer.row) :
  let merged_df := merge fact_df customer_df in
  (∀ f, f ∈ fact_df ↔ ∃ m, m ∈ merged_df ∧ Merged.fact m = f) ∧
  (∀ m, m ∈ merged_df →
        match Merged.customer m with
        | Some c => c ∈ customer_df ∧
                    Customer.customer_id c = Merged.customer_id m
        | None => ∀ c, c ∈ customer_df →
                       Customer.customer_id c ≠ Merged.customer_id m
        end) ∧
  length merged_df =
    sum_list_with
      (λ f, Nat.max 1 (length (filter (λ c, Customer.customer_id c =
                                            Fact.customer_id f) customer_df)))
      fact_df ∧
  Merged.fact <$> merged_df =
    (f ← fact_df;
     replicate
       (Nat.max 1 (length (filter (λ c, Customer.customer_id c =
                                        Fact.customer_id f) customer_df)))
       f) ∧
  Merged.customer <$> merged_df =
    (f ← fact_df;
     match filter (λ c, Customer.customer_id c = Fact.customer_id f)
             customer_df with
     | [] => [None]
     | matches => Some <$> matches
     end).
Proof.
  intros merged_df. subst merged_df. unfold merge.
  destruct (merge_left_columns Fact.customer_id Customer.customer_id
              fact_df customer_df) as [Hfacts Hcustomers].
  split; [| split; [| split; [| split]]].
  - intros f. split.
    + intros [o Ho]%(merge_left_covers Fact.customer_id Customer.customer_id
                       _ customer_df).
      exists {| Merged.fact := f; Merged.customer := o |}.
      split; [| done]. apply list_elem_of_fmap. by exists (f, o).
    + intros (m & (p & -> & Hp)%list_elem_of_fmap & <-). simpl.
      by apply AggregatorSpec.merge_left_fst in Hp as [? _].
  - intros m (p & -> & Hp)%list_elem_of_fmap. simpl.
    by apply AggregatorSpec.merge_left_fst in Hp as [_ ?].
  - by rewrite length_fmap, merge_left_length.
  - by rewrite <- list_fmap_compose.
  - by rewrite <- list_fmap_compose.
Qed.

(** ** The summary *)

Lemma StronglySorted_NoDup_strict {A : Type} (R : relation A) (l : list A) :
  StronglySorted R l → NoDup l →
  StronglySorted (λ x y, R x y ∧ x ≠ y) l.
Proof.
  induction 1 as [|x l Hsorted IH Hall]; [constructor |].
  intros [Hx Hnd]%NoDup_cons. constructor; [by apply IH |].
  apply Forall_forall. intros y Hy. split.
  - by eapply Forall_forall in Hall.
  - by intros ->.
Qed.

(** X13. The rows of the summary come in ascending order of region, every
    region before all regions greater than it. *)
Theorem summary_sorted_by_region (merged_df : list (Merged.row float)) :
  StronglySorted (λ k1 k2, String.le k1 k2 ∧ k1 ≠ k2)
    (Summary.region <$> region_summary merged_df).
Proof.
  rewrite AggregatorSpec.region_summary_regions.
  destruct (groupby_spec (@Merged.region float) merged_df) as (Hnd & _).
  apply StronglySorted_NoDup_strict; [| done].
  apply Sorted_StronglySorted; [apply _ |].
  apply (Sorted_fmap fst key_le); [done |]. apply groupby_Sorted.
Qed.

Lemma count_filter {A B : Type} (f : A → option B) (l : list A) :
  count (f <$> l) = Z.of_nat (length (filter (λ x, is_Some (f x)) l)).
Proof.
  unfold count. f_equal. induction l as [|x l IH]; [done |].
  rewrite fmap_cons, !filter_cons.
  destruct (decide (is_Some (f x))); simpl; by rewrite IH.
Qed.

(** X14. The other columns of a summary row are taken over the same rows
    as the loan total, the rows of the join with the region of the row, of
    which there is at least one: the outstanding and EMI totals are sums,
    the average delay is the mean of the delays, and [customer_count] is
    the number of those rows whose customer id is not missing, so a
    customer with two facts counts twice. *)
Theorem summary_columns_of_region (merged_df : list (Merged.row float)) s :
  s ∈ region_summary merged_df →
  let rows := rows_of_region (Some (Summary.region s)) merged_df in
  rows ≠ [] ∧
  Summary.total_outstanding_amount s =
    sum (Merged.outstanding_amount <$> rows) ∧
  Summary.total_emi_amount s = sum (Merged.emi_amount <$> rows) ∧
  Summary.avg_payment_delay s = mean (Merged.payment_delay_days <$> rows) ∧
  Summary.customer_count s =
    Z.of_nat (length (filter (λ m, is_Some (Merged.customer_id m)) rows)).
Proof.
  intros Hs rows. subst rows.
  pose proof (AggregatorSpec.elem_of_region_summary sum mean _ _ Hs) as Heq.
  split.
  - unfold Aggregator.region_summary in Hs.
    apply list_elem_of_fmap in Hs as ([k rs] & -> & Hg).
    destruct (groupby_spec (@Merged.region float) merged_df) as (_ & _ & Hrows).
    apply Hrows in Hg as [Hrs Hne]. unfold rows_of_region. simpl.
    by rewrite <- Hrs.
  - rewrite <- count_filter.
    remember (rows_of_region (Some (Summary.region s)) merged_df) as rows
      eqn:Hrows.
    clear Hrows Hs. by rewrite Heq.
Qed.

Lemma group_insert_rows_Permutation {A : Type} k (r : A) groups :
  mjoin (group_insert k r groups).*2 ≡ₚ mjoin groups.*2 ++ [r].
Proof.
  induction groups as [|[k' rs] groups IH]; csimpl; [done |].
  destruct (decide (k = k')); csimpl.
  - rewrite <- !(assoc_L (++)). f_equiv. apply Permutation_app_comm.
  - rewrite IH. by rewrite (assoc_L (++)).
Qed.

(** The groups hold the rows that have a key, each once. *)
Lemma groupby_rows_Permutation {A : Type} (key : A → option string)
    (df : list A) :
  mjoin (groupby key df).*2 ≡ₚ filter (λ r, is_Some (key r)) df.
Proof.
  rewrite groupby_Permutation. unfold split_groups.
  induction df as [|r df IH] using rev_ind; [done |].
  rewrite foldl_snoc, filter_app, filter_cons, filter_nil.
  destruct (key r) as [k|] eqn:Hr.
  - rewrite group_insert_rows_Permutation, IH.
    by rewrite decide_True by eauto.
  - rewrite IH, decide_False by (by intros [? ?]). by rewrite app_nil_r.
Qed.

Lemma count_app {A : Type} (l1 l2 : list (option A)) :
  count (l1 ++ l2) = count l1 + count l2.
Proof. unfold count. rewrite filter_app, length_app. lia. Qed.

(** X15. The summary counts every row once: the [customer_count]s of its
    rows add up to the number of rows of the join that have a region and a
    customer id. *)
Theorem customer_counts_add_up (merged_df : list (Merged.row float)) :
  foldr Z.add 0 (Summary.customer_count <$> region_summary merged_df) =
  Z.of_nat
    (length (filter (λ m, is_Some (Merged.customer_id m) ∧
                          is_Some (Merged.region m)) merged_df)).
Proof.
  rewrite <- list_filter_filter.
  rewrite <- (groupby_rows_Permutation (@Merged.region float) merged_df).
  rewrite <- count_filter. unfold Aggregator.region_summary.
  induction (groupby Merged.region merged_df) as [|[k rs] groups IH];
    csimpl; [done |].
  by rewrite IH, fmap_app, count_app.
Qed.

End Run.

(** *** On the tables of [Scenario] *)

Lemma scenario_reads :
  read_parquet_folder_from_s3 Scenario.read_fact
    (Scenario.aggregator_world Scenario.silver_store) (Some "loans")
    (SILVER_PREFIX Scenario.aggregator_cfg +:+ "fact_loan_payment/") =
    inr Scenario.facts ∧
  read_parquet_folder_from_s3 Scenario.read_customer
    (Scenario.aggregator_world Scenario.silver_store) (Some "loans")
    (SILVER_PREFIX Scenario.aggregator_cfg +:+ "dim_customer/") =
    inr Scenario.customers.
Proof. split; by vm_compute. Qed.

Lemma effects_in_order_witness :
  (run (lambda_handler Scenario.sum Scenario.mean Scenario.read_fact
          Scenario.read_customer Scenario.aggregator_cfg
          (Scenario.aggregator_world Scenario.silver_store))).2
  `prefix_of`
  planned_effects "loans" Scenario.aggregator_cfg
    (region_summary Scenario.sum Scenario.mean
       (merge Scenario.facts Scenario.customers)).
Proof.
  apply (effects_in_order Scenario.sum Scenario.mean Scenario.read_fact
           Scenario.read_customer Scenario.aggregator_cfg
           (Scenario.aggregator_world Scenario.silver_store) "loans"
           Scenario.facts Scenario.customers).
  - done.
  - apply scenario_reads.
  - apply scenario_reads.
Defined.

Lemma copy_failure_keeps_artifact_witness :
  run (lambda_handler Scenario.sum Scenario.mean Scenario.read_fact
         Scenario.read_customer Scenario.aggregator_cfg
         (Scenario.aggregator_world_copy_fails Scenario.silver_store)) =
  (inl BulkLoadError,
   take 3 (planned_effects "loans" Scenario.aggregator_cfg
             (region_summary Scenario.sum Scenario.mean
                (merge Scenario.facts Scenario.customers)))).
Proof.
  apply (copy_failure_keeps_artifact Scenario.sum Scenario.mean
           Scenario.read_fact Scenario.read_customer Scenario.aggregator_cfg
           (Scenario.aggregator_world_copy_fails Scenario.silver_store)
           "loans" "rds/etl" Scenario.creds "etl" "pw"
           Scenario.facts Scenario.customers BulkLoadError);
    try done; try (by vm_compute).
Defined.

Lemma aggregation_succeeds_witness :
  run (lambda_handler Scenario.sum Scenario.mean Scenario.read_fact
         Scenario.read_customer Scenario.aggregator_cfg
         (Scenario.aggregator_world Scenario.silver_store)) =
  (inr (success
          (length (region_summary Scenario.sum Scenario.mean
                     (merge Scenario.facts Scenario.customers)))),
   planned_effects "loans" Scenario.aggregator_cfg
     (region_summary Scenario.sum Scenario.mean
        (merge Scenario.facts Scenario.customers))).
Proof.
  apply (aggregation_succeeds Scenario.sum Scenario.mean
           Scenario.read_fact Scenario.read_customer Scenario.aggregator_cfg
           (Scenario.aggregator_world Scenario.silver_store)
           "loans" "rds/etl" Scenario.creds "etl" "pw"
           Scenario.facts Scenario.customers);
    try done; try (by vm_compute).
Defined.

Lemma summary_columns_of_region_witness :
  Summary.customer_count Scenario.north_row =
  Z.of_nat
    (length
       (filter (λ m, is_Some (Merged.customer_id m))
          (rows_of_region (Some "North")
             (merge Scenario.facts Scenario.customers)))).
Proof.
  apply (summary_columns_of_region Scenario.sum Scenario.mean
           (merge Scenario.facts Scenario.customers) Scenario.north_row
           AggregatorSpec.north_row_in_summary).
Defined.

End AggregatorMore.

(** * The two stages together *)

Module SilverSpec.
Import Silver.

(** The lower-cased columns of the two silver tables are the columns the
    Aggregator joins and aggregates. *)
Lemma lower_columns :
  lower <$> dim_customer_columns =
    ["customer_id"; "name"; "region"; "contact_number"; "email";
     "customer_score"; "risk_level"] ∧
  lower <$> fact_loan_payment_columns =
    ["customer_id"; "account_number"; "loan_amount"; "outstanding_amount";
     "emi_amount"; "due_date"; "payment_status"; "last_payment_date";
     "payment_delay_days"; "payment_on_time_flag"; "payment_behavior"].
Proof. split; reflexivity. Qed.

Section Spec.
Context {cell float : Type}.
Variable astype_float : cell → option float.
Variable astype_int : cell → option Z.
Variable gt0 : float → bool.

Abbreviation invoke := (Normalizer.invoke astype_float astype_int gt0).

(** X16. On the tables one returned run of the Normalizer wrote, the left
    join of the Aggregator is exact: no two customer rows share an id, every
    fact row finds its customer, and the join has the fact rows, each
    once. No fact of such a run falls outside the regions for want of a
    customer. *)
Theorem join_of_one_run env (w : Normalizer.world) r :
  (invoke env w).1 = inr r →
  let fact_df :=
    read_fact_row <$> Normalizer.written_fact_rows (invoke env w).2 in
  let customer_df :=
    read_customer_row <$> Normalizer.written_customer_rows (invoke env w).2 in
  let merged_df := Aggregator.merge fact_df customer_df in
  NoDup (Aggregator.Customer.customer_id <$> customer_df) ∧
  Aggregator.Merged.fact <$> merged_df = fact_df ∧
  ∀ m, m ∈ merged_df → is_Some (Aggregator.Merged.customer m).
Proof.
  intros Hret fact_df customer_df merged_df.
  destruct (NormalizerMore.invoke_returns _ _ _ _ _ _ Hret)
    as (cfg & typed & _ & Hm & Hlog).
  assert (NoDup (Aggregator.Customer.customer_id <$> customer_df)) as Hnd.
  { subst customer_df. rewrite <- list_fmap_compose, Hlog.
    unfold Normalizer.written_customer_rows, Normalizer.planned_writes.
    csimpl. rewrite app_nil_r.
    apply (drop_duplicates_from_NoDup Normalizer.DimCustomer.Customer_ID). }
  split; [done |]. split.
  - subst merged_df. unfold Aggregator.merge. rewrite <- list_fmap_compose.
    by apply (AggregatorSpec.merge_left_unique_keys
                Aggregator.Fact.customer_id) with (left := fact_df) in Hnd.
  - intros m (p & -> & Hp)%list_elem_of_fmap. simpl.
    apply AggregatorSpec.merge_left_fst in Hp as [Hf Hnone].
    destruct p.2 as [c|]; [done |]. exfalso.
    subst fact_df customer_df.
    apply list_elem_of_fmap in Hf as (f & Hpf & Hf).
    rewrite Hlog in Hf, Hnone.
    unfold Normalizer.written_fact_rows, Normalizer.written_customer_rows,
      Normalizer.planned_writes in Hf, Hnone.
    csimpl in *. rewrite app_nil_r in Hf, Hnone.
    apply list_elem_of_fmap in Hf as (d & -> & Hd).
    destruct (drop_duplicates_from_complete
                Normalizer.DimCustomer.Customer_ID []
                (Normalizer.customer_columns <$>
                   Normalizer.silver gt0 typed)
                (Normalizer.customer_columns d)) as (c & Hc & Hkey).
    { apply list_elem_of_fmap. by exists d. }
    { apply not_elem_of_nil. }
    apply (Hnone (read_customer_row c)).
    + apply list_elem_of_fmap. by exists c.
    + rewrite Hpf. simpl. by rewrite Hkey.
Qed.

End Spec.

Lemma join_of_one_run_witness :
  NoDup (Aggregator.Customer.customer_id <$>
           (read_customer_row <$>
              Normalizer.written_customer_rows
                (Scenario.normalizer_run Scenario.bronze).2)).
Proof.
  apply (join_of_one_run Scenario.astype_float Scenario.astype_int
           Scenario.gt0 Scenario.normalizer_env
           (Scenario.normalizer_world Scenario.bronze) Normalizer.success).
  by vm_compute.
Defined.

End SilverSpec.
